(** * Tradebot: risk calculator, shared state store and trade state machine

    A shallow embedding of [backend/risk_calculator.py],
    [backend/shared_state.py] and [backend/trade_logic.py].

    - Python [float] is IEEE binary64, which is Rocq's primitive [float]:
      arithmetic and comparisons are the kernel's, so a NaN compares false
      with everything and literals such as [0.001] denote the nearest
      binary64 value, exactly as in CPython.  The one place where Python
      departs from IEEE is division, which raises [ZeroDivisionError] on a
      zero divisor; [py_div] models that.
    - Exceptions are results: [outcome A] is either [Ret a] or [Raise e].
    - [TradeState] objects are mutable and shared by reference: they live in
      a heap ([gmap loc TradeState]) and the store's dictionary maps a trade
      id to a location.
    - Dictionaries that are written to the state file keep their insertion
      order (as Python dicts do), so they are association lists.
    - [time.time()] and [datetime.now().isoformat()] read a clock that is
      part of the world and advances with every reading.
    - Logging calls have no effect on the state and are left out, except in
      the two load functions, where the skipped records are reported. *)

From Stdlib Require Import ZArith Floats Lia Bool List.
From stdpp Require Import base option strings pretty gmap.

Set Warnings "-inexact-float,-register-all".
Local Open Scope float_scope.

(* ===================================================================== *)
(** * Python values: exceptions, floats, ordered dictionaries            *)
(* ===================================================================== *)

Module Py.

Inductive exn : Type :=
| ZeroDivisionError
| ValueError
| TypeError
| AttributeError
| JSONDecodeError
| ReferenceError.

Inductive outcome (A : Type) : Type :=
| Ret (a : A)
| Raise (e : exn).
Arguments Ret {A} a.
Arguments Raise {A} e.

#[global] Instance outcome_ret : MRet outcome := fun _ a => Ret a.
#[global] Instance outcome_bind : MBind outcome := fun _ _ f m =>
  match m with
  | Ret a => f a
  | Raise e => Raise e
  end.

(** [a / b] on Python floats. *)
Definition py_div (a b : float) : outcome float :=
  if b =? 0 then Raise ZeroDivisionError else Ret (a / b).

(** [max(a, b)]: the first argument unless the second is greater. *)
Definition py_max (a b : float) : float :=
  if a <? b then b else a.

(** [x != x], the only way a Python float fails to equal itself. *)
Definition is_nan (x : float) : bool := negb (x =? x).

(** ** A rank on binary64 values that decides the comparisons

    [SFcompare] orders two numbers by sign, then exponent, then mantissa.
    [key] sends a number to a triple of integers ordered
    lexicographically in the same way; a NaN has no key. *)
Definition key (x : spec_float) : option (Z * Z * Z) :=
  match x with
  | S754_nan => None
  | S754_zero _ => Some (0, 0, 0)%Z
  | S754_infinity s => Some (if s then (-2)%Z else 2%Z, 0%Z, 0%Z)
  | S754_finite s m e =>
      Some (if s then ((-1)%Z, (- e)%Z, Z.neg m) else (1%Z, e, Z.pos m))
  end.

Definition lex_lt (a b : Z * Z * Z) : Prop :=
  let '(a1, a2, a3) := a in
  let '(b1, b2, b3) := b in
  (a1 < b1 \/ (a1 = b1 /\ (a2 < b2 \/ (a2 = b2 /\ a3 < b3))))%Z.

Definition lex_le (a b : Z * Z * Z) : Prop :=
  let '(a1, a2, a3) := a in
  let '(b1, b2, b3) := b in
  (a1 < b1 \/ (a1 = b1 /\ (a2 < b2 \/ (a2 = b2 /\ a3 <= b3))))%Z.

Definition lex_eq (a b : Z * Z * Z) : Prop :=
  let '(a1, a2, a3) := a in
  let '(b1, b2, b3) := b in
  (a1 = b1 /\ a2 = b2 /\ a3 = b3)%Z.

Definition fkey (x : float) : option (Z * Z * Z) := key (Prim2SF x).

(** Two floats are related when both are numbers and their keys are. *)
Definition rel (R : Z * Z * Z -> Z * Z * Z -> Prop) (x y : float) : Prop :=
  match fkey x, fkey y with
  | Some a, Some b => R a b
  | _, _ => False
  end.

Definition flt : float -> float -> Prop := rel lex_lt.
Definition fle : float -> float -> Prop := rel lex_le.
Definition feq : float -> float -> Prop := rel lex_eq.

(** ** Python dictionaries with string keys, in insertion order *)

Definition dict (V : Type) : Type := list (string * V).

Fixpoint dict_get {V} (d : dict V) (k : string) : option V :=
  match d with
  | [] => None
  | (k', v) :: d' => if String.eqb k k' then Some v else dict_get d' k
  end.

(** [d[k] = v]: an existing key keeps its place, a new key goes last. *)
Fixpoint dict_set {V} (d : dict V) (k : string) (v : V) : dict V :=
  match d with
  | [] => [(k, v)]
  | (k', v') :: d' =>
      if String.eqb k k' then (k', v) :: d' else (k', v') :: dict_set d' k v
  end.

(** [del d[k]] for a key that may be absent. *)
Fixpoint dict_del {V} (d : dict V) (k : string) : dict V :=
  match d with
  | [] => []
  | (k', v') :: d' =>
      if String.eqb k k' then dict_del d' k else (k', v') :: dict_del d' k
  end.

Definition dict_mem {V} (d : dict V) (k : string) : bool :=
  match dict_get d k with Some _ => true | None => false end.

(** [min(a, b)]: the first argument unless the second is smaller. *)
Definition py_min (a b : float) : float :=
  if b <? a then b else a.

(** [float(n)] for a small non-negative integer. *)
Definition float_of_Z (n : Z) : float :=
  PrimFloat.of_uint63 (Uint63.of_Z n).

End Py.
Import Py.

(* ===================================================================== *)
(** * backend/risk_calculator.py                                         *)
(* ===================================================================== *)

Module RiskCalculator.

Record CommissionCalculation : Type := {
  entry_commission_usd : float;
  exit_commission_usd : float;
  total_commission_usd : float;
  entry_commission_bnb : float;
  exit_commission_bnb : float;
  total_commission_bnb : float;
  has_bnb_discount : bool;
  commission_rate_used : float
}.

(** [reason] of a [StopLossCalculation]: one of two fixed strings. *)
Inductive stop_loss_reason : Type :=
| commission_based
| profit_ratio_based.

Record StopLossCalculation : Type := {
  stop_loss_price : float;
  stop_loss_amount_usd : float;
  reason : stop_loss_reason;
  commission_amount : float;
  profit_ratio_amount : float
}.

Record BNBRequirement : Type := {
  required_bnb : float;
  required_bnb_with_safety : float;
  current_bnb_balance : float;
  is_sufficient : bool;
  bnb_price_usd : float;
  safety_multiplier : float
}.

(** The attributes set by [RiskCalculator.__init__]. *)
Definition commission_rate_standard : float := 0.001.
Definition commission_rate_with_bnb : float := 0.00075.
Definition stop_loss_profit_ratio : float := 0.5.
Definition bnb_safety_multiplier : float := 2.5.

Definition calculate_commissions
    (trade_amount_usd bnb_balance bnb_price : float)
    : outcome CommissionCalculation :=
  let commission_rate :=
    if 0.001 <? bnb_balance then commission_rate_with_bnb
    else commission_rate_standard in
  let has_discount := 0.001 <? bnb_balance in
  let entry_usd := trade_amount_usd * commission_rate in
  let exit_usd := trade_amount_usd * commission_rate in
  let total_usd := entry_usd + exit_usd in
  '(entry_bnb, exit_bnb, total_bnb) ←
    (if has_discount then
       e ← py_div entry_usd bnb_price;
       x ← py_div exit_usd bnb_price;
       t ← py_div total_usd bnb_price;
       mret (e, x, t)
     else mret (0, 0, 0));
  mret {| entry_commission_usd := entry_usd;
          exit_commission_usd := exit_usd;
          total_commission_usd := total_usd;
          entry_commission_bnb := entry_bnb;
          exit_commission_bnb := exit_bnb;
          total_commission_bnb := total_bnb;
          has_bnb_discount := has_discount;
          commission_rate_used := commission_rate |}.

Definition calculate_bnb_requirement
    (trade_amount_usd balance bnb_price : float) : outcome BNBRequirement :=
  commission_calc ← calculate_commissions trade_amount_usd balance bnb_price;
  let required := total_commission_bnb commission_calc in
  let required_with_safety := required * bnb_safety_multiplier in
  let sufficient := required_with_safety <=? balance in
  mret {| required_bnb := required;
          required_bnb_with_safety := required_with_safety;
          current_bnb_balance := balance;
          is_sufficient := sufficient;
          bnb_price_usd := bnb_price;
          safety_multiplier := bnb_safety_multiplier |}.

Definition calculate_stop_loss
    (entry_price target_profit_usd trade_amount_usd bnb_balance bnb_price : float)
    : outcome StopLossCalculation :=
  commission_calc ← calculate_commissions trade_amount_usd bnb_balance bnb_price;
  let commission := total_commission_usd commission_calc in
  let profit_ratio := target_profit_usd * stop_loss_profit_ratio in
  let amount := py_max commission profit_ratio in
  let why := if amount =? commission then commission_based
             else profit_ratio_based in
  btc_quantity ← py_div trade_amount_usd entry_price;
  stop_loss_per_unit ← py_div amount btc_quantity;
  mret {| stop_loss_price := entry_price - stop_loss_per_unit;
          stop_loss_amount_usd := amount;
          reason := why;
          commission_amount := commission;
          profit_ratio_amount := profit_ratio |}.

(** The dictionary returned by [calculate_trailing_thresholds]. *)
Record TrailingThresholds : Type := {
  tt_target_profit_usd : float;
  trailing_activation_usd : float;
  trailing_amount_usd : float;
  trailing_percent : float;
  minimum_exit_profit_usd : float
}.

Definition calculate_trailing_thresholds
    (target_profit_usd percent : float) : TrailingThresholds :=
  let trailing_amount := target_profit_usd * (percent / 100) in
  {| tt_target_profit_usd := target_profit_usd;
     trailing_activation_usd := target_profit_usd;
     trailing_amount_usd := trailing_amount;
     trailing_percent := percent;
     minimum_exit_profit_usd := target_profit_usd - trailing_amount |}.

(** The [details] dictionary of [check_trade_viability], filled in as the
    checks proceed. *)
Record Details : Type := {
  commissions : option CommissionCalculation;
  bnb_requirement : option BNBRequirement;
  stop_loss : option StopLossCalculation;
  trailing : option TrailingThresholds;
  risk_reward_ratio : option float
}.

Definition no_details : Details :=
  {| commissions := None; bnb_requirement := None; stop_loss := None;
     trailing := None; risk_reward_ratio := None |}.

(** The message returned by [check_trade_viability], with the numbers it
    formats. *)
Inductive viability : Type :=
| Trade_amount_too_small (amount minimum : float)
| Insufficient_BNB (need have : float)
| Stop_loss_too_large (percent : float)
| Poor_risk_reward_ratio (ratio : float)
| Trade_viable.

Definition check_trade_viability
    (trade_amount_usd target_profit_usd entry_price balance bnb_price
       min_trade_amount : float)
    : outcome (bool * viability * Details) :=
  let details := no_details in
  if trade_amount_usd <? min_trade_amount then
    mret (false, Trade_amount_too_small trade_amount_usd min_trade_amount, details)
  else
    commission_calc ← calculate_commissions trade_amount_usd balance bnb_price;
    let details :=
      {| commissions := Some commission_calc;
         bnb_requirement := bnb_requirement details;
         stop_loss := stop_loss details; trailing := trailing details;
         risk_reward_ratio := risk_reward_ratio details |} in
    bnb_req ← calculate_bnb_requirement trade_amount_usd balance bnb_price;
    let details :=
      {| commissions := commissions details;
         bnb_requirement := Some bnb_req;
         stop_loss := stop_loss details; trailing := trailing details;
         risk_reward_ratio := risk_reward_ratio details |} in
    if negb (is_sufficient bnb_req) then
      mret (false,
            Insufficient_BNB (required_bnb_with_safety bnb_req) balance,
            details)
    else
      stop_loss_calc ←
        calculate_stop_loss entry_price target_profit_usd trade_amount_usd
                            balance bnb_price;
      let details :=
        {| commissions := commissions details;
           bnb_requirement := bnb_requirement details;
           stop_loss := Some stop_loss_calc; trailing := trailing details;
           risk_reward_ratio := risk_reward_ratio details |} in
      fraction ← py_div (entry_price - stop_loss_price stop_loss_calc) entry_price;
      let stop_loss_percent := fraction * 100 in
      if 10 <? stop_loss_percent then
        mret (false, Stop_loss_too_large stop_loss_percent, details)
      else
        let thresholds := calculate_trailing_thresholds target_profit_usd 20 in
        let details :=
          {| commissions := commissions details;
             bnb_requirement := bnb_requirement details;
             stop_loss := stop_loss details; trailing := Some thresholds;
             risk_reward_ratio := risk_reward_ratio details |} in
        ratio ← py_div target_profit_usd (stop_loss_amount_usd stop_loss_calc);
        let details :=
          {| commissions := commissions details;
             bnb_requirement := bnb_requirement details;
             stop_loss := stop_loss details; trailing := trailing details;
             risk_reward_ratio := Some ratio |} in
        if ratio <? 1.5 then
          mret (false, Poor_risk_reward_ratio ratio, details)
        else
          mret (true, Trade_viable, details).

(** The result dictionary of [calculate_position_size]: the failure, or the
    success with its trade amount, quantity, risk amount, risk in percent
    of the balance and details. *)
Inductive position_size : Type :=
| No_suitable_size
| Position_size (trade_amount btc_quantity risk_amount risk_percent : float)
                (details : Details).

Definition risk_multipliers : list float := [0.5; 1.0; 1.5; 2.0; 2.5; 3.0].

(** The loop of [calculate_position_size] over the multipliers still to be
    tried; it returns [best_trade_amount] and [best_details].  A viable
    result of [check_trade_viability] always has its stop-loss (lemma
    [viable_checks]), so the case without one never arises; it stands for
    the [KeyError] of [details["stop_loss"]]. *)
Fixpoint find_size (multipliers : list float)
    (available_balance entry_price target_profit_usd max_risk_amount
       balance bnb_price : float)
    : outcome (float * option Details) :=
  match multipliers with
  | [] => Ret (0, None)
  | risk_multiplier :: rest =>
      let continue :=
        find_size rest available_balance entry_price target_profit_usd
                  max_risk_amount balance bnb_price in
      let test_trade_amount := max_risk_amount * risk_multiplier in
      if available_balance * 0.1 <? test_trade_amount then continue
      else
        '(is_viable, _, details) ←
          check_trade_viability test_trade_amount target_profit_usd
                                entry_price balance bnb_price 10;
        if is_viable : bool then
          match stop_loss details with
          | Some s =>
              if stop_loss_amount_usd s <=? max_risk_amount
              then Ret (test_trade_amount, Some details)
              else continue
          | None => Raise ReferenceError
          end
        else continue
  end.

Definition calculate_position_size
    (available_balance entry_price target_profit_usd risk_percent_of_balance
       balance bnb_price : float)
    : outcome position_size :=
  let max_risk_amount := available_balance * (risk_percent_of_balance / 100) in
  '(best_trade_amount, best_details) ←
    find_size risk_multipliers available_balance entry_price
              target_profit_usd max_risk_amount balance bnb_price;
  if best_trade_amount =? 0 then mret No_suitable_size
  else
    btc_quantity ← py_div best_trade_amount entry_price;
    match best_details with
    | Some details =>
        match stop_loss details with
        | Some s =>
            fraction ← py_div (stop_loss_amount_usd s) available_balance;
            mret (Position_size best_trade_amount btc_quantity
                                (stop_loss_amount_usd s) (fraction * 100)
                                details)
        | None => Raise ReferenceError
        end
    | None => Raise TypeError
    end.

End RiskCalculator.

(* ===================================================================== *)
(** * The values [json.load] returns and [json.dump] accepts             *)
(* ===================================================================== *)

Module Json.

Inductive json : Type :=
| JNull
| JBool (b : bool)
| JInt (z : Z)
| JFloat (f : float)
| JStr (s : string)
| JArr (l : list json)
| JObj (d : list (string * json)).

(** [d.get(k, default)] on a loaded value; a value that is not a dict has
    no [get]. *)
Definition get_default (j : json) (k : string) (default : json) : outcome json :=
  match j with
  | JObj d => Ret (match dict_get d k with Some v => v | None => default end)
  | _ => Raise AttributeError
  end.

(** [d.items()]. *)
Definition items (j : json) : outcome (list (string * json)) :=
  match j with
  | JObj d => Ret d
  | _ => Raise AttributeError
  end.

(** What a file holds: text that [json.load] rejects, or the value it
    returns.  [json.dump] writes a value as a text that is determined by
    the value, so two files with the same value are the same bytes. *)
Inductive content : Type :=
| Unparsable
| Parsed (j : json).

Definition json_load (c : content) : outcome json :=
  match c with
  | Unparsable => Raise JSONDecodeError
  | Parsed j => Ret j
  end.

End Json.
Import Json.

(* ===================================================================== *)
(** * backend/shared_state.py                                            *)
(* ===================================================================== *)

Module SharedState.

(** The dataclass [TradeState], with the types of its annotations. *)
Record TradeState : Type := {
  trade_id : string;
  symbol : string;
  side : string;
  quantity : float;
  entry_price : float;
  current_price : float;
  entry_time : float;
  target_profit_usd : float;
  current_profit_usd : float;
  max_profit_usd : float;
  trailing_active : bool;
  trailing_threshold : float;
  stop_loss_price : float;
  stop_loss_reason : string;
  bnb_sufficient : bool;
  estimated_commission : float;
  status : string;
  last_update : float;
  process_id : option Z
}.

(** A keyword argument [name=value] naming an attribute that the callers
    of this repository assign, or some other name. *)
Inductive kwarg : Type :=
| kw_current_price (v : float)
| kw_current_profit_usd (v : float)
| kw_max_profit_usd (v : float)
| kw_trailing_active (v : bool)
| kw_status (v : string)
| kw_last_update (v : float)
| kw_process_id (v : option Z)
| kw_other (name : string).

(** [setattr(trade, name, value)] for a name that [hasattr] accepts; any
    other name leaves the object as it is. *)
Definition setattr (t : TradeState) (kw : kwarg) : TradeState :=
  let cp := match kw with kw_current_price v => v | _ => current_price t end in
  let cpu := match kw with kw_current_profit_usd v => v | _ => current_profit_usd t end in
  let mpu := match kw with kw_max_profit_usd v => v | _ => max_profit_usd t end in
  let ta := match kw with kw_trailing_active v => v | _ => trailing_active t end in
  let st := match kw with kw_status v => v | _ => status t end in
  let lu := match kw with kw_last_update v => v | _ => last_update t end in
  let pid := match kw with kw_process_id v => v | _ => process_id t end in
  {| trade_id := trade_id t; symbol := symbol t; side := side t;
     quantity := quantity t; entry_price := entry_price t;
     current_price := cp; entry_time := entry_time t;
     target_profit_usd := target_profit_usd t;
     current_profit_usd := cpu; max_profit_usd := mpu;
     trailing_active := ta; trailing_threshold := trailing_threshold t;
     stop_loss_price := stop_loss_price t;
     stop_loss_reason := stop_loss_reason t;
     bnb_sufficient := bnb_sufficient t;
     estimated_commission := estimated_commission t;
     status := st; last_update := lu; process_id := pid |}.

(** A reference to a [TradeState] object. *)
Definition loc : Type := nat.

(** The dataclass [SystemState].  The dictionary of trades holds
    references.  [market_data], [balance_data] and [last_update] hold
    whatever the state file had under those keys, so they are JSON values;
    [sys_last_update] is the attribute [last_update]. *)
Record SystemState : Type := {
  active_trades : dict loc;
  market_data : json;
  balance_data : json;
  sys_last_update : json;
  bot_running : bool;
  websocket_connected : bool
}.

(** What [logger.error] is called with in this module. *)
Inductive log_record : Type :=
| Error_saving_state (e : exn)
| Error_loading_state (e : exn)
| Error_restoring_trade (id : string) (e : exn)
| Error_loading_backup (e : exn).

(** The process and its surroundings: the heap of [TradeState] objects
    and the next free reference, [shared_state._system_state], the two
    files ([None] when the file does not exist), the clock and the error
    log.  The lock file protects against other processes and has no
    effect within one. *)
Record world : Type := {
  heap : gmap loc TradeState;
  next_loc : loc;
  _system_state : SystemState;
  state_file : option content;
  backup_file : option content;
  time_time : nat -> float;
  datetime_now : nat -> string;
  ticks : nat;
  errors : list log_record
}.

Definition with_heap (h : gmap loc TradeState) (n : loc) (w : world) : world :=
  {| heap := h; next_loc := n; _system_state := _system_state w;
     state_file := state_file w; backup_file := backup_file w;
     time_time := time_time w; datetime_now := datetime_now w;
     ticks := ticks w; errors := errors w |}.

Definition with_state (s : SystemState) (w : world) : world :=
  {| heap := heap w; next_loc := next_loc w; _system_state := s;
     state_file := state_file w; backup_file := backup_file w;
     time_time := time_time w; datetime_now := datetime_now w;
     ticks := ticks w; errors := errors w |}.

Definition with_files (sf bf : option content) (w : world) : world :=
  {| heap := heap w; next_loc := next_loc w; _system_state := _system_state w;
     state_file := sf; backup_file := bf;
     time_time := time_time w; datetime_now := datetime_now w;
     ticks := ticks w; errors := errors w |}.

Definition with_ticks (n : nat) (w : world) : world :=
  {| heap := heap w; next_loc := next_loc w; _system_state := _system_state w;
     state_file := state_file w; backup_file := backup_file w;
     time_time := time_time w; datetime_now := datetime_now w;
     ticks := n; errors := errors w |}.

Definition with_errors (l : list log_record) (w : world) : world :=
  {| heap := heap w; next_loc := next_loc w; _system_state := _system_state w;
     state_file := state_file w; backup_file := backup_file w;
     time_time := time_time w; datetime_now := datetime_now w;
     ticks := ticks w; errors := l |}.

(** ** Computations that read and change the world and may raise *)

Definition M (A : Type) : Type := world -> outcome A * world.

#[global] Instance M_ret : MRet M := fun _ a w => (Ret a, w).
#[global] Instance M_bind : MBind M := fun _ _ f m w =>
  match m w with
  | (Ret a, w') => f a w'
  | (Raise e, w') => (Raise e, w')
  end.

Definition lift {A} (o : outcome A) : M A := fun w => (o, w).

(** [try: body except Exception as e: handler(e)]. *)
Definition try_except {A} (body : M A) (handler : exn -> M A) : M A :=
  fun w =>
    match body w with
    | (Ret a, w') => (Ret a, w')
    | (Raise e, w') => handler e w'
    end.

Definition gets {A} (f : world -> A) : M A := fun w => (Ret (f w), w).
Definition modify (f : world -> world) : M unit := fun w => (Ret tt, f w).

Definition logger_error (r : log_record) : M unit :=
  modify (fun w => with_errors (errors w ++ [r]) w).

(** [time.time()]. *)
Definition time_time_call : M float :=
  fun w => (Ret (time_time w (ticks w)), with_ticks (S (ticks w)) w).

(** [datetime.now().isoformat()]. *)
Definition datetime_now_isoformat : M string :=
  fun w => (Ret (datetime_now w (ticks w)), with_ticks (S (ticks w)) w).

(** ** Objects *)

(** [TradeState(...)]: a new object. *)
Definition new (t : TradeState) : M loc :=
  fun w => (Ret (next_loc w),
            with_heap (<[next_loc w := t]> (heap w)) (S (next_loc w)) w).

(** The object behind a reference.  Every reference handed out by [new]
    has one; [ReferenceError] stands for a reference that does not. *)
Definition deref (l : loc) : M TradeState :=
  fun w => match heap w !! l with
           | Some t => (Ret t, w)
           | None => (Raise ReferenceError, w)
           end.

(** [trade.name]. *)
Definition getattr {A} (l : loc) (f : TradeState -> A) : M A :=
  t ← deref l; mret (f t).

(** The world in which the object at [l] is [t]. *)
Definition put (l : loc) (t : TradeState) (w : world) : world :=
  with_heap (<[l := t]> (heap w)) (next_loc w) w.

(** [trade.name = value]. *)
Definition assign (l : loc) (kw : kwarg) : M unit :=
  t ← deref l;
  modify (put l (setattr t kw)).

Definition get_state : M SystemState := gets _system_state.
Definition set_state (s : SystemState) : M unit := modify (with_state s).

Definition set_active_trades (d : dict loc) (s : SystemState) : SystemState :=
  {| active_trades := d; market_data := market_data s;
     balance_data := balance_data s; sys_last_update := sys_last_update s;
     bot_running := bot_running s;
     websocket_connected := websocket_connected s |}.

Definition set_market_data (v : json) (s : SystemState) : SystemState :=
  {| active_trades := active_trades s; market_data := v;
     balance_data := balance_data s; sys_last_update := sys_last_update s;
     bot_running := bot_running s;
     websocket_connected := websocket_connected s |}.

Definition set_balance_data (v : json) (s : SystemState) : SystemState :=
  {| active_trades := active_trades s; market_data := market_data s;
     balance_data := v; sys_last_update := sys_last_update s;
     bot_running := bot_running s;
     websocket_connected := websocket_connected s |}.

Definition set_sys_last_update (v : json) (s : SystemState) : SystemState :=
  {| active_trades := active_trades s; market_data := market_data s;
     balance_data := balance_data s; sys_last_update := v;
     bot_running := bot_running s;
     websocket_connected := websocket_connected s |}.

Definition set_bot_running (b : bool) (s : SystemState) : SystemState :=
  {| active_trades := active_trades s; market_data := market_data s;
     balance_data := balance_data s; sys_last_update := sys_last_update s;
     bot_running := b;
     websocket_connected := websocket_connected s |}.

Definition set_websocket_connected (b : bool) (s : SystemState) : SystemState :=
  {| active_trades := active_trades s; market_data := market_data s;
     balance_data := balance_data s; sys_last_update := sys_last_update s;
     bot_running := bot_running s;
     websocket_connected := b |}.

(** The state built by [SharedState.__init__] before it calls
    [load_state]. *)
Definition initial_state (now : float) : SystemState :=
  {| active_trades := []; market_data := JObj []; balance_data := JObj [];
     sys_last_update := JFloat now; bot_running := false;
     websocket_connected := false |}.

(** [self._system_state.name = value]. *)
Definition assign_state (f : SystemState -> SystemState) : M unit :=
  s ← get_state; set_state (f s).

(** ** Reading and writing trade records *)

(** [asdict(trade_state)]: the fields in the order of their declaration. *)
Definition asdict (t : TradeState) : json :=
  JObj [ ("trade_id", JStr (trade_id t));
         ("symbol", JStr (symbol t));
         ("side", JStr (side t));
         ("quantity", JFloat (quantity t));
         ("entry_price", JFloat (entry_price t));
         ("current_price", JFloat (current_price t));
         ("entry_time", JFloat (entry_time t));
         ("target_profit_usd", JFloat (target_profit_usd t));
         ("current_profit_usd", JFloat (current_profit_usd t));
         ("max_profit_usd", JFloat (max_profit_usd t));
         ("trailing_active", JBool (trailing_active t));
         ("trailing_threshold", JFloat (trailing_threshold t));
         ("stop_loss_price", JFloat (stop_loss_price t));
         ("stop_loss_reason", JStr (stop_loss_reason t));
         ("bnb_sufficient", JBool (bnb_sufficient t));
         ("estimated_commission", JFloat (estimated_commission t));
         ("status", JStr (status t));
         ("last_update", JFloat (last_update t));
         ("process_id", match process_id t with
                       | Some pid => JInt pid
                       | None => JNull
                       end) ].

Definition field_names : list string :=
  [ "trade_id"; "symbol"; "side"; "quantity"; "entry_price";
    "current_price"; "entry_time"; "target_profit_usd";
    "current_profit_usd"; "max_profit_usd"; "trailing_active";
    "trailing_threshold"; "stop_loss_price"; "stop_loss_reason";
    "bnb_sufficient"; "estimated_commission"; "status"; "last_update";
    "process_id" ].

Definition kw_str (d : dict json) (k : string) : outcome string :=
  match dict_get d k with Some (JStr v) => Ret v | _ => Raise TypeError end.

Definition kw_float (d : dict json) (k : string) : outcome float :=
  match dict_get d k with Some (JFloat v) => Ret v | _ => Raise TypeError end.

Definition kw_bool (d : dict json) (k : string) : outcome bool :=
  match dict_get d k with Some (JBool v) => Ret v | _ => Raise TypeError end.

(** [process_id] has the default [None]. *)
Definition kw_process_id_of (d : dict json) : outcome (option Z) :=
  match dict_get d "process_id" with
  | None | Some JNull => Ret None
  | Some (JInt pid) => Ret (Some pid)
  | Some _ => Raise TypeError
  end.

(** The constructor [TradeState] called with the keyword arguments
    [trade_data].  The call raises [TypeError] when
    [trade_data] is not a dict, when a key names no field and when a field
    without default is missing.  The record is typed by the annotations
    of the dataclass, so a value of another type than the annotated one is
    rejected here as well (Python would keep it in the object). *)
Definition TradeState_of_kwargs (trade_data : json) : outcome TradeState :=
  match trade_data with
  | JObj d =>
      if forallb (fun kv => existsb (String.eqb (fst kv)) field_names) d then
        v1 ← kw_str d "trade_id";
        v2 ← kw_str d "symbol";
        v3 ← kw_str d "side";
        v4 ← kw_float d "quantity";
        v5 ← kw_float d "entry_price";
        v6 ← kw_float d "current_price";
        v7 ← kw_float d "entry_time";
        v8 ← kw_float d "target_profit_usd";
        v9 ← kw_float d "current_profit_usd";
        v10 ← kw_float d "max_profit_usd";
        v11 ← kw_bool d "trailing_active";
        v12 ← kw_float d "trailing_threshold";
        v13 ← kw_float d "stop_loss_price";
        v14 ← kw_str d "stop_loss_reason";
        v15 ← kw_bool d "bnb_sufficient";
        v16 ← kw_float d "estimated_commission";
        v17 ← kw_str d "status";
        v18 ← kw_float d "last_update";
        v19 ← kw_process_id_of d;
        mret {| trade_id := v1; symbol := v2; side := v3; quantity := v4;
                entry_price := v5; current_price := v6; entry_time := v7;
                target_profit_usd := v8; current_profit_usd := v9;
                max_profit_usd := v10; trailing_active := v11;
                trailing_threshold := v12; stop_loss_price := v13;
                stop_loss_reason := v14; bnb_sufficient := v15;
                estimated_commission := v16; status := v17;
                last_update := v18; process_id := v19 |}
      else Raise TypeError
  | _ => Raise TypeError
  end.

(** The dict comprehension of [save_state]. *)
Fixpoint trades_to_json (trades : list (string * loc)) (acc : dict json)
    : M (dict json) :=
  match trades with
  | [] => mret acc
  | (id, l) :: rest =>
      t ← deref l;
      trades_to_json rest (dict_set acc id (asdict t))
  end.

(** ** save_state *)

Definition save_state (force : bool) : M unit :=
  try_except
    (sf ← gets state_file;
     match sf with
     | Some c => modify (fun w => with_files (state_file w) (Some c) w)
     | None => mret tt
     end;;
     now ← time_time_call;
     assign_state (set_sys_last_update (JFloat now));;
     s ← get_state;
     trades ← trades_to_json (active_trades s) [];
     saved_at ← datetime_now_isoformat;
     let state_dict :=
       JObj [ ("active_trades", JObj trades);
              ("market_data", market_data s);
              ("balance_data", balance_data s);
              ("last_update", sys_last_update s);
              ("bot_running", JBool (bot_running s));
              ("websocket_connected", JBool (websocket_connected s));
              ("saved_at", JStr saved_at) ] in
     modify (fun w => with_files (Some (Parsed state_dict)) (backup_file w) w))
    (fun e => logger_error (Error_saving_state e)).

(** ** load_state and _try_load_backup *)

(** The loop of [load_state]: the first record that fails ends it. *)
Fixpoint restore_all (records : list (string * json)) (acc : dict loc)
    : M (dict loc) :=
  match records with
  | [] => mret acc
  | (id, trade_data) :: rest =>
      t ← lift (TradeState_of_kwargs trade_data);
      l ← new t;
      restore_all rest (dict_set acc id l)
  end.

(** The loop of [_try_load_backup]: a record that fails is reported and
    left out. *)
Fixpoint restore_each (records : list (string * json)) (acc : dict loc)
    : M (dict loc) :=
  match records with
  | [] => mret acc
  | (id, trade_data) :: rest =>
      acc' ← try_except
               (t ← lift (TradeState_of_kwargs trade_data);
                l ← new t;
                mret (dict_set acc id l))
               (fun e => logger_error (Error_restoring_trade id e);; mret acc);
      restore_each rest acc'
  end.

(** The body of the [try] of [_try_load_backup], for a backup file that
    exists. *)
Definition load_backup (c : content) : M unit :=
  state_dict ← lift (json_load c);
  trades ← lift (get_default state_dict "active_trades" (JObj []));
  records ← lift (items trades);
  active ← restore_each records [];
  assign_state (set_active_trades active).

Definition _try_load_backup : M unit :=
  try_except
    (bf ← gets backup_file;
     match bf with
     | Some c => load_backup c
     | None => mret tt
     end)
    (fun e => logger_error (Error_loading_backup e)).

(** The body of the [try] of [load_state], for a state file that exists. *)
Definition load_primary (c : content) : M unit :=
  state_dict ← lift (json_load c);
  trades ← lift (get_default state_dict "active_trades" (JObj []));
  records ← lift (items trades);
  active ← restore_all records [];
  assign_state (set_active_trades active);;
  md ← lift (get_default state_dict "market_data" (JObj []));
  assign_state (set_market_data md);;
  bd ← lift (get_default state_dict "balance_data" (JObj []));
  assign_state (set_balance_data bd);;
  now ← time_time_call;
  lu ← lift (get_default state_dict "last_update" (JFloat now));
  assign_state (set_sys_last_update lu);;
  assign_state (set_bot_running false);;
  assign_state (set_websocket_connected false).

Definition load_state : M unit :=
  try_except
    (sf ← gets state_file;
     match sf with
     | None => mret tt
     | Some c => load_primary c
     end)
    (fun e => logger_error (Error_loading_state e);; _try_load_backup).

(** [SharedState.__init__]: a fresh state, then [load_state]. *)
Definition init : M unit :=
  now ← time_time_call;
  set_state (initial_state now);;
  load_state.

(** ** Trades *)

Definition add_trade (trade : loc) : M unit :=
  id ← getattr trade trade_id;
  assign_state (fun s => set_active_trades (dict_set (active_trades s) id trade) s);;
  save_state true.

Fixpoint setattrs (trade : loc) (updates : list kwarg) : M unit :=
  match updates with
  | [] => mret tt
  | kw :: rest => assign trade kw;; setattrs trade rest
  end.

Definition update_trade (id : string) (updates : list kwarg) : M unit :=
  s ← get_state;
  match dict_get (active_trades s) id with
  | Some trade =>
      setattrs trade updates;;
      now ← time_time_call;
      assign trade (kw_last_update now)
  | None => mret tt
  end.

Definition remove_trade (id : string) : M unit :=
  s ← get_state;
  if dict_mem (active_trades s) id then
    assign_state (fun s => set_active_trades (dict_del (active_trades s) id) s);;
    save_state true
  else mret tt.

(** [active_trades.get(trade_id)]: the stored reference, or [None]. *)
Definition get_trade (id : string) : M (option loc) :=
  s ← get_state; mret (dict_get (active_trades s) id).

(** [active_trades.copy()]: a new dictionary with the same references. *)
Definition get_all_trades : M (dict loc) :=
  s ← get_state; mret (active_trades s).

Definition set_bot_status (running : bool) : M unit :=
  assign_state (set_bot_running running);;
  save_state true.

Definition set_websocket_status (connected : bool) : M unit :=
  assign_state (set_websocket_connected connected).

(** A dict display [{..., **other}] and [d.update(other)]: the keys of
    [other] are set in turn. *)
Definition dict_update {V} (d other : dict V) : dict V :=
  fold_left (fun acc kv => dict_set acc (fst kv) (snd kv)) other d.


(** [balance_data.update(balances)]. *)
Definition update_balance_data (balances : dict float) : M unit :=
  s ← get_state;
  match balance_data s with
  | JObj d =>
      set_state
        (set_balance_data
           (JObj (dict_update d (map (fun kv => (fst kv, JFloat (snd kv))) balances)))
           s)
  | _ => lift (Raise AttributeError)
  end.

End SharedState.

(* ===================================================================== *)
(** * backend/trade_logic.py                                             *)
(* ===================================================================== *)

Module TradeLogic.
Import SharedState.

Inductive TradePhase : Type :=
| ENTERING
| WAITING_PROFIT
| TRAILING
| EXITING
| COMPLETED.

(** [phase.value]. *)
Definition value (p : TradePhase) : string :=
  match p with
  | ENTERING => "entering"
  | WAITING_PROFIT => "waiting"
  | TRAILING => "trailing"
  | EXITING => "exiting"
  | COMPLETED => "completed"
  end.

(** [TradePhase(s)]: the member with that value, or [ValueError]. *)
Definition TradePhase_of (s : string) : outcome TradePhase :=
  if String.eqb s "entering" then Ret ENTERING
  else if String.eqb s "waiting" then Ret WAITING_PROFIT
  else if String.eqb s "trailing" then Ret TRAILING
  else if String.eqb s "exiting" then Ret EXITING
  else if String.eqb s "completed" then Ret COMPLETED
  else Raise ValueError.

(** The attributes set by [TradeLogic.__init__].  [phase_callbacks] starts
    empty and nothing in the repository calls [set_phase_callback], so the
    branches guarded by [TradePhase.X in self.phase_callbacks] are never
    taken and are left out below. *)
Definition target_profit_usd_default : float := 50.
Definition trailing_percent : float := 20.

(** The coroutines below never yield before they return (they await only
    each other), so they run as ordinary functions. *)

Definition _trigger_exit (trade : loc) (reason : string) : M unit :=
  assign trade (kw_status (value EXITING));;
  id ← getattr trade trade_id;
  update_trade id [kw_status (value EXITING)].

Definition _handle_waiting_phase (trade : loc) (current_profit : float)
    : M (bool * option string) :=
  target ← getattr trade target_profit_usd;
  if target <=? current_profit then
    assign trade (kw_trailing_active true);;
    assign trade (kw_max_profit_usd current_profit);;
    assign trade (kw_status (value TRAILING));;
    id ← getattr trade trade_id;
    update_trade id [ kw_trailing_active true;
                      kw_max_profit_usd current_profit;
                      kw_status (value TRAILING) ];;
    mret (true, None)
  else
    mret (true, None).

Definition _handle_trailing_phase (trade : loc) (current_profit : float)
    : M (bool * option string) :=
  old_max ← getattr trade max_profit_usd;
  (if old_max <? current_profit then
     assign trade (kw_max_profit_usd current_profit);;
     id ← getattr trade trade_id;
     update_trade id [kw_max_profit_usd current_profit]
   else mret tt);;
  new_max ← getattr trade max_profit_usd;
  threshold ← getattr trade trailing_threshold;
  let trailing_exit_level := new_max - threshold in
  target ← getattr trade target_profit_usd;
  let minimum_acceptable_profit := target - threshold * 0.5 in
  let profit_dropped_enough := current_profit <=? trailing_exit_level in
  let profit_being_eaten := current_profit <=? minimum_acceptable_profit in
  if profit_dropped_enough || profit_being_eaten then
    let reason := if profit_dropped_enough then "trailing_stop"
                  else "profit_protection" in
    _trigger_exit trade reason;;
    mret (false, Some reason)
  else
    mret (true, None).

Definition update_trade_with_price (id : string) (price : float)
    : M (bool * option string) :=
  found ← get_trade id;
  match found with
  | None => mret (false, Some "Trade not found")
  | Some trade =>
      assign trade (kw_current_price price);;
      entry ← getattr trade entry_price;
      let profit_per_btc := price - entry in
      qty ← getattr trade quantity;
      let current_profit := profit_per_btc * qty in
      assign trade (kw_current_profit_usd current_profit);;
      stop ← getattr trade stop_loss_price;
      if price <=? stop then
        _trigger_exit trade "stop_loss";;
        mret (false, Some "stop_loss")
      else
        st ← getattr trade status;
        current_phase ← lift (TradePhase_of st);
        match current_phase with
        | WAITING_PROFIT => _handle_waiting_phase trade current_profit
        | TRAILING => _handle_trailing_phase trade current_profit
        | _ =>
            now ← time_time_call;
            update_trade id [ kw_current_price price;
                              kw_current_profit_usd current_profit;
                              kw_last_update now ];;
            mret (true, None)
        end
  end.

Definition complete_trade (id : string) (exit_price actual_profit : float)
    : M unit :=
  found ← get_trade id;
  match found with
  | None => mret tt
  | Some trade =>
      assign trade (kw_status (value COMPLETED));;
      assign trade (kw_current_price exit_price);;
      assign trade (kw_current_profit_usd actual_profit);;
      now ← time_time_call;
      update_trade id [ kw_status (value COMPLETED);
                        kw_current_price exit_price;
                        kw_current_profit_usd actual_profit;
                        kw_last_update now ];;
      remove_trade id
  end.

(** [get_trade_summary].  The attributes are read from one object that
    nothing changes in between, so it is dereferenced once.  The values of
    the dictionary are evaluated in the order of the display: the phase and
    the profit in percent first, the clock last. *)
Definition get_trade_summary (id : string) : M (dict json) :=
  found ← get_trade id;
  match found with
  | None => mret [("error", JStr "Trade not found")]
  | Some trade =>
      t ← deref trade;
      current_phase ← lift (TradePhase_of (status t));
      fraction ← lift (py_div (current_profit_usd t)
                              (entry_price t * quantity t));
      let profit_percent := fraction * 100 in
      now ← time_time_call;
      let summary :=
        [ ("trade_id", JStr id);
          ("symbol", JStr (symbol t));
          ("phase", JStr (value current_phase));
          ("entry_price", JFloat (entry_price t));
          ("current_price", JFloat (current_price t));
          ("quantity", JFloat (quantity t));
          ("current_profit_usd", JFloat (current_profit_usd t));
          ("profit_percent", JFloat profit_percent);
          ("target_profit", JFloat (target_profit_usd t));
          ("max_profit_achieved", JFloat (max_profit_usd t));
          ("trailing_active", JBool (trailing_active t));
          ("stop_loss_price", JFloat (stop_loss_price t));
          ("age_minutes", JFloat ((now - entry_time t) / 60)) ] in
      match current_phase with
      | WAITING_PROFIT =>
          progress ← lift (py_div (current_profit_usd t) (target_profit_usd t));
          mret (dict_set summary "progress_to_target" (JFloat (progress * 100)))
      | TRAILING =>
          let summary :=
            dict_set summary "trailing_buffer"
                     (JFloat (max_profit_usd t - current_profit_usd t)) in
          mret (dict_set summary "exit_threshold"
                         (JFloat (max_profit_usd t - trailing_threshold t)))
      | _ => mret summary
      end
  end.

(** The loop of [get_all_trades_summary] over the items still to come,
    with the running total, distribution and summaries. *)
Fixpoint summarize_trades (all_trades : list (string * loc)) (total : float)
    (phases : dict Z) (trades : dict json)
    : M (float * dict Z * dict json) :=
  match all_trades with
  | [] => mret (total, phases, trades)
  | (trade_id, trade) :: rest =>
      trade_summary ← get_trade_summary trade_id;
      let trades := dict_set trades trade_id (JObj trade_summary) in
      profit ← getattr trade current_profit_usd;
      let total := total + profit in
      phase ← getattr trade status;
      let n := match dict_get phases phase with
               | Some n => n
               | None => 0%Z
               end in
      summarize_trades rest total (dict_set phases phase (n + 1)%Z) trades
  end.

(** [get_all_trades_summary].  The total starts as the integer 0, to which
    the first profit is added as to the float 0; with no trade it stays the
    integer. *)
Definition get_all_trades_summary : M (dict json) :=
  all_trades ← get_all_trades;
  '(total, phases, trades) ← summarize_trades all_trades 0 [] [];
  mret [ ("total_active_trades", JInt (Z.of_nat (length all_trades)));
         ("total_unrealized_profit",
          match all_trades with
          | [] => JInt 0
          | _ => JFloat total
          end);
         ("phases_distribution",
          JObj (map (fun kv => (fst kv, JInt (snd kv))) phases));
         ("trades", JObj trades) ].

End TradeLogic.

(** [TradeSignal] and [analyze_entry_signal] of trade_logic.py, in a module
    of their own because the fields of [TradeSignal] have the names of
    fields of [TradeState]. *)
Module EntrySignal.
Import SharedState.

(** The strings appended to [reasons], with the number they format. *)
Inductive reason : Type :=
| RSI_oversold (rsi : float)
| RSI_favorable (rsi : float)
| MACD_bullish_crossover
| MACD_positive_momentum.

Record TradeSignal : Type := {
  symbol : string;
  entry_price : float;
  target_profit_usd : float;
  confidence : float;
  reasons : list reason;
  timestamp : float
}.

(** [market_indicators.get(name, default)]. *)
Definition indicator (market_indicators : dict float) (name : string)
    (default : float) : float :=
  match dict_get market_indicators name with
  | Some v => v
  | None => default
  end.

(** The score and the reasons after the RSI and MACD tests. *)
Definition score_of (rsi macd macd_signal : float) : Z * list reason :=
  let '(score, reasons) :=
    if rsi <? 35 then (30%Z, [RSI_oversold rsi])
    else if rsi <? 45 then (15%Z, [RSI_favorable rsi])
    else (0%Z, []) in
  if (macd_signal <? macd) && (0 <? macd)
  then ((score + 25)%Z, reasons ++ [MACD_bullish_crossover])
  else if macd_signal <? macd
       then ((score + 10)%Z, reasons ++ [MACD_positive_momentum])
       else (score, reasons).

Definition analyze_entry_signal (sym : string) (current_price : float)
    (market_indicators : dict float) (available_balance : float)
    : M (option TradeSignal) :=
  let rsi := indicator market_indicators "rsi" 50 in
  let macd := indicator market_indicators "macd" 0 in
  let macd_signal := indicator market_indicators "macdsignal" 0 in
  let '(score, reasons) := score_of rsi macd macd_signal in
  if available_balance <? 50 then mret None
  else if (score <? 30)%Z then mret None
  else
    let confidence := py_min (float_of_Z score / 60) 1 in
    now ← time_time_call;
    mret (Some {| symbol := sym; entry_price := current_price;
                  target_profit_usd := TradeLogic.target_profit_usd_default;
                  confidence := confidence; reasons := reasons;
                  timestamp := now |}).

End EntrySignal.

(* ===================================================================== *)
(** * Sample data                                                        *)
(* ===================================================================== *)

Module Sample.
Import SharedState.

(** A position of 1000 USD bought at 60000 with the default target of 50
    and trailing threshold of 10, as [create_trade_state] builds it. *)
Definition trade (id st : string) (max_profit : float) : TradeState :=
  {| trade_id := id; symbol := "BTCUSDT"; side := "BUY";
     quantity := 1000 / 60000; entry_price := 60000;
     current_price := 60000; entry_time := 1700000000;
     target_profit_usd := 50; current_profit_usd := 0;
     max_profit_usd := max_profit; trailing_active := false;
     trailing_threshold := 10; stop_loss_price := 58500;
     stop_loss_reason := "profit_ratio_based"; bnb_sufficient := true;
     estimated_commission := 2; status := st;
     last_update := 1700000000; process_id := None |}.

Definition clock (n : nat) : float :=
  1700000000 + PrimFloat.of_uint63 (Uint63.of_Z (Z.of_nat n)).

Definition iso (n : nat) : string :=
  String.append "2023-11-14T22:13:" (pretty (20 + n)%nat).

(** A world with no object, an empty store and no file. *)
Definition empty_world : world :=
  {| heap := ∅; next_loc := 0%nat;
     _system_state := initial_state 1700000000;
     state_file := None; backup_file := None;
     time_time := clock; datetime_now := iso; ticks := 0%nat;
     errors := [] |}.

(** A record of the state file that lacks most fields. *)
Definition malformed : json :=
  JObj [("trade_id", JStr "b"); ("symbol", JStr "BTCUSDT")].

(** A state file with a well-formed and a malformed position. *)
Definition two_positions : content :=
  Parsed (JObj [ ("active_trades",
                  JObj [ ("a", asdict (trade "a" "waiting" 0));
                         ("b", malformed) ]);
                 ("market_data", JObj []);
                 ("balance_data", JObj []);
                 ("last_update", JFloat 1700000000);
                 ("bot_running", JBool true);
                 ("websocket_connected", JBool true);
                 ("saved_at", JStr "2023-11-14T22:13:20") ]).

(** The world of a process that starts with the given files. *)
Definition world_with_files (primary backup : option content) : world :=
  {| heap := ∅; next_loc := 0%nat;
     _system_state := initial_state 1700000000;
     state_file := primary; backup_file := backup;
     time_time := clock; datetime_now := iso; ticks := 0%nat;
     errors := [] |}.

(** The world after [add_trade] of one new object. *)
Definition world_with (t : TradeState) : world :=
  snd ((l ← new t; add_trade l) empty_world).

End Sample.


(* ===================================================================== *)
(** * Notions used to state the properties                               *)
(* ===================================================================== *)

Module Props.
Import SharedState TradeLogic.

(** The store of [w] holds, under [id], the object [l], whose present
    value is [t] and which carries the id it is stored under. *)
Definition stored (w : world) (id : string) (l : loc) (t : TradeState) : Prop :=
  dict_get (active_trades (_system_state w)) id = Some l /\
  heap w !! l = Some t /\
  trade_id t = id.

(** The profit that [update_trade_with_price] computes from a price. *)
Definition profit_at (t : TradeState) (price : float) : float :=
  (price - entry_price t) * quantity t.


(** What one call of [update_trade_with_price] does to a stored record
    [t], read off the code branch by branch: the result, the attributes
    assigned in order, and the clock after the call.  [clock] is
    [time.time] and [n] the number of readings made before the call.
    The lemma [update_trade_with_price_run] shows that the code does
    exactly this. *)
Definition tick (t : TradeState) (price : float) (clock : nat -> float) (n : nat)
    : outcome (bool * option string) * list kwarg * nat :=
  let profit := profit_at t price in
  let base := [kw_current_price price; kw_current_profit_usd profit] in
  let leave (k : nat) :=
    [kw_status (value EXITING); kw_status (value EXITING);
     kw_last_update (clock k)] in
  if price <=? stop_loss_price t then
    (Ret (false, Some "stop_loss"), base ++ leave n, S n)
  else
    match TradePhase_of (status t) with
    | Raise e => (Raise e, base, n)
    | Ret WAITING_PROFIT =>
        if target_profit_usd t <=? profit then
          (Ret (true, None),
           base ++ [kw_trailing_active true; kw_max_profit_usd profit;
                    kw_status (value TRAILING);
                    kw_trailing_active true; kw_max_profit_usd profit;
                    kw_status (value TRAILING); kw_last_update (clock n)],
           S n)
        else (Ret (true, None), base, n)
    | Ret TRAILING =>
        let raised := max_profit_usd t <? profit in
        let raise_max :=
          if raised then [kw_max_profit_usd profit; kw_max_profit_usd profit;
                          kw_last_update (clock n)]
          else [] in
        let n1 := if raised then S n else n in
        let new_max := py_max (max_profit_usd t) profit in
        let dropped := profit <=? new_max - trailing_threshold t in
        let eaten :=
          profit <=? target_profit_usd t - trailing_threshold t * 0.5 in
        if dropped || eaten then
          (Ret (false, Some (if dropped then "trailing_stop"
                             else "profit_protection")),
           base ++ raise_max ++ leave n1, S n1)
        else (Ret (true, None), base ++ raise_max, n1)
    | Ret _ =>
        (Ret (true, None),
         base ++ [kw_current_price price; kw_current_profit_usd profit;
                  kw_last_update (clock n); kw_last_update (clock (S n))],
         S (S n))
    end.

(** The decision of the trailing handler, as a function of the numbers. *)
Definition trailing_decision (profit old_max threshold target : float)
    : bool * option string :=
  if profit <=? py_max old_max profit - threshold
  then (false, Some "trailing_stop")
  else if profit <=? target - threshold * 0.5
       then (false, Some "profit_protection")
       else (true, None).

(** The state dictionary that [save_state] writes. *)
Definition state_dict (trades : dict json) (s : SystemState) (saved_at : string)
    : json :=
  JObj [ ("active_trades", JObj trades);
         ("market_data", market_data s);
         ("balance_data", balance_data s);
         ("last_update", sys_last_update s);
         ("bot_running", JBool (bot_running s));
         ("websocket_connected", JBool (websocket_connected s));
         ("saved_at", JStr saved_at) ].

(** The top-level dictionary of a state file without some of its keys. *)
Definition content_without (keys : list string) (c : option content)
    : option (dict json) :=
  match c with
  | Some (Parsed (JObj d)) => Some (fold_left dict_del keys d)
  | _ => None
  end.

(** Every reference in the store has an object. *)
Definition live (w : world) : Prop :=
  Forall (fun kv => is_Some (heap w !! snd kv))
         (active_trades (_system_state w)).

(** [w'] is [w] with more objects and more log records, and nothing else
    changed. *)
Definition extends (w w' : world) : Prop :=
  _system_state w' = _system_state w /\
  state_file w' = state_file w /\
  backup_file w' = backup_file w /\
  time_time w' = time_time w /\
  datetime_now w' = datetime_now w /\
  ticks w' = ticks w /\
  (next_loc w <= next_loc w')%nat /\
  (forall l, (l < next_loc w)%nat -> heap w' !! l = heap w !! l) /\
  exists more, errors w' = errors w ++ more.

(** The dictionary [d] of the world [w] holds exactly the records of
    [records] that the constructor accepts, each as an object with the
    fields of the record; the rejected ones are absent and reported. *)
Definition restored_from (records : list (string * json)) (d : dict loc)
    (w : world) : Prop :=
  (forall id trade_data, In (id, trade_data) records ->
     match TradeState_of_kwargs trade_data with
     | Ret t => exists l, dict_get d id = Some l /\ heap w !! l = Some t
     | Raise e => dict_get d id = None /\
                  In (Error_restoring_trade id e) (errors w)
     end) /\
  (forall id, ~ In id (map fst records) -> dict_get d id = None).

(** A candidate amount of [calculate_position_size] qualifies when it is
    within a tenth of the balance, viable, and its stop-loss amount is
    within the risk budget. *)
Definition qualifies (available_balance entry_price target_profit_usd
    max_risk_amount balance bnb_price test_trade_amount : float)
    (details : RiskCalculator.Details) : Prop :=
  (available_balance * 0.1 <? test_trade_amount) = false /\
  RiskCalculator.check_trade_viability test_trade_amount target_profit_usd
    entry_price balance bnb_price 10 =
    Ret (true, RiskCalculator.Trade_viable, details) /\
  exists s, RiskCalculator.stop_loss details = Some s /\
            (RiskCalculator.stop_loss_amount_usd s <=? max_risk_amount) = true.

(** The records that [save_state] writes for the trades [trades] of the
    world [w]. *)
Definition snapshot (w : world) (trades : dict loc) : dict json :=
  map (fun kv => (fst kv, match heap w !! snd kv with
                          | Some t => asdict t
                          | None => JNull
                          end)) trades.

(** The terms of a trade: the attributes that no price update assigns. *)
Definition terms (t : TradeState) :=
  (trade_id t, symbol t, side t, quantity t, entry_price t, entry_time t,
   target_profit_usd t, trailing_threshold t, stop_loss_price t,
   stop_loss_reason t, bnb_sufficient t, estimated_commission t,
   process_id t).

(** The ways a status can change: not at all, from waiting to trailing, or
    to exiting. *)
Definition phase_step (s s' : string) : Prop :=
  s' = s \/
  (s = value WAITING_PROFIT /\ s' = value TRAILING) \/
  s' = value EXITING.

(** The entry rule in terms of the indicators: enough balance, and an
    oversold RSI or a favourable RSI with a bullish MACD crossover. *)
Definition signal_wanted (market_indicators : dict float)
    (available_balance : float) : bool :=
  let rsi := EntrySignal.indicator market_indicators "rsi" 50 in
  let macd := EntrySignal.indicator market_indicators "macd" 0 in
  let macd_signal := EntrySignal.indicator market_indicators "macdsignal" 0 in
  negb (available_balance <? 50) &&
  ((rsi <? 35) || ((rsi <? 45) && (macd_signal <? macd) && (0 <? macd))).

(** A record that [get_trade_summary] can summarize: its status is a
    phase, its cost is not zero, and neither is its target while it waits. *)
Definition summarizable (t : TradeState) : Prop :=
  exists p, TradePhase_of (status t) = Ret p /\
            (entry_price t * quantity t =? 0) = false /\
            (p = WAITING_PROFIT -> (target_profit_usd t =? 0) = false).

(** A record whose status is no phase or whose cost is zero. *)
Definition unsummarizable (t : TradeState) : Prop :=
  (exists e, TradePhase_of (status t) = Raise e) \/
  (entry_price t * quantity t =? 0) = true.

(** Successive price updates of one trade, whatever each of them returns. *)
Fixpoint run_prices (id : string) (prices : list float) (w : world) : world :=
  match prices with
  | [] => w
  | p :: rest => run_prices id rest (snd (update_trade_with_price id p w))
  end.

End Props.


(* ===================================================================== *)
(** * Comparisons of binary64 numbers                                    *)
(* ===================================================================== *)

(** [SFcompare] is the lexicographic comparison of the keys. *)
Lemma SFcompare_key (x y : spec_float) :
  match key x, key y with
  | Some a, Some b =>
      match SFcompare x y with
      | Some Lt => lex_lt a b
      | Some Eq => lex_eq a b
      | Some Gt => lex_lt b a
      | None => False
      end
  | _, _ => SFcompare x y = None
  end.
Proof.
  destruct x as [sx|sx| |sx mx ex], y as [sy|sy| |sy my ey];
    try destruct sx; try destruct sy; simpl; try reflexivity; try lia.
  - destruct (Z.compare_spec ex ey); simpl; try lia.
    change (Pos.compare_cont Eq mx my) with (Pos.compare mx my).
    destruct (Pos.compare_spec mx my); simpl; subst; lia.
  - destruct (Z.compare_spec ex ey); simpl; try lia.
    change (Pos.compare_cont Eq mx my) with (Pos.compare mx my).
    destruct (Pos.compare_spec mx my); simpl; subst; lia.
Qed.

Ltac cmp_iff :=
  unfold flt, fle, feq, rel, fkey, SFltb, SFleb, SFeqb;
  match goal with
  | |- context [SFcompare ?a ?b] =>
      let H := fresh "H" in
      pose proof (SFcompare_key a b) as H;
      destruct (key a) as [[[? ?] ?]|], (key b) as [[[? ?] ?]|];
      try (rewrite H; split; [discriminate | tauto]);
      destruct (SFcompare a b) as [[]|]; simpl in *; split; intros;
      try discriminate; try reflexivity; try tauto; lia
  end.

Lemma ltb_iff (x y : float) : (x <? y) = true <-> flt x y.
Proof. rewrite FloatAxioms.ltb_spec. cmp_iff. Qed.

Lemma leb_iff (x y : float) : (x <=? y) = true <-> fle x y.
Proof. rewrite FloatAxioms.leb_spec. cmp_iff. Qed.

Lemma eqb_iff (x y : float) : (x =? y) = true <-> feq x y.
Proof. rewrite FloatAxioms.eqb_spec. cmp_iff. Qed.

Lemma bool_false_iff (b : bool) (P : Prop) :
  (b = true <-> P) -> (b = false <-> ~ P).
Proof. destruct b; intuition congruence. Qed.

Lemma ltb_false (x y : float) : (x <? y) = false <-> ~ flt x y.
Proof. apply bool_false_iff, ltb_iff. Qed.

Lemma leb_false (x y : float) : (x <=? y) = false <-> ~ fle x y.
Proof. apply bool_false_iff, leb_iff. Qed.

Lemma eqb_false (x y : float) : (x =? y) = false <-> ~ feq x y.
Proof. apply bool_false_iff, eqb_iff. Qed.

Lemma is_nan_false (x : float) : is_nan x = false <-> feq x x.
Proof. unfold is_nan. rewrite negb_false_iff. apply eqb_iff. Qed.

(** A closed float expression evaluates to a literal, which has a class. *)
Ltac is_literal c :=
  let k := eval vm_compute in (PrimFloat.classify c) in
  lazymatch k with
  | PrimFloat.classify _ => fail
  | _ => idtac
  end.

(** The key of a literal is computed; the key of any other float is
    abstracted to an unknown triple, or to nothing for a NaN. *)
Ltac float_key c :=
  first
    [ is_literal c;
      let v := eval vm_compute in (fkey c) in
      change (fkey c) with v in *
    | let k := fresh "k" in
      generalize dependent (fkey c); intros k;
      destruct k as [[[? ?] ?]|] ].

(** Decides facts that follow from the order of the floats involved. *)
Ltac float_order :=
  repeat match goal with
    | H : context [(_ <? _) = true] |- _ => rewrite ltb_iff in H
    | H : context [(_ <? _) = false] |- _ => rewrite ltb_false in H
    | H : context [(_ <=? _) = true] |- _ => rewrite leb_iff in H
    | H : context [(_ <=? _) = false] |- _ => rewrite leb_false in H
    | H : context [(_ =? _) = true] |- _ => rewrite eqb_iff in H
    | H : context [(_ =? _) = false] |- _ => rewrite eqb_false in H
    | H : context [is_nan _ = false] |- _ => rewrite is_nan_false in H
    | |- context [(_ <? _) = true] => rewrite ltb_iff
    | |- context [(_ <? _) = false] => rewrite ltb_false
    | |- context [(_ <=? _) = true] => rewrite leb_iff
    | |- context [(_ <=? _) = false] => rewrite leb_false
    | |- context [(_ =? _) = true] => rewrite eqb_iff
    | |- context [(_ =? _) = false] => rewrite eqb_false
    | |- context [is_nan _ = false] => rewrite is_nan_false
    end;
  unfold flt, fle, feq, rel in *;
  repeat match goal with
    | |- context [fkey ?c] => float_key c
    | H : context [fkey ?c] |- _ => float_key c
    end;
  simpl in *; try tauto; try lia.

Lemma leb_not_gt (x y : float) : (x <=? y) = true -> (y <? x) = false.
Proof. intros. float_order. Qed.

Lemma ltb_not_ge (x y : float) : (x <? y) = true -> (y <=? x) = false.
Proof. intros. float_order. Qed.

Lemma ltb_leb (x y : float) : (x <? y) = true -> (x <=? y) = true.
Proof. intros. float_order. Qed.


Lemma leb_refl_l (x y : float) : (x <=? y) = true -> (x =? x) = true.
Proof. intros. float_order. Qed.




Lemma not_ltb_leb (x y : float) :
  is_nan x = false -> is_nan y = false -> (x <? y) = false -> (y <=? x) = true.
Proof. intros. float_order. Qed.

(** On numbers, Python's [max] is the greater of the two. *)
Lemma py_max_spec (a b : float) :
  is_nan a = false -> is_nan b = false ->
  (a <=? py_max a b) = true /\ (b <=? py_max a b) = true /\
  (py_max a b = a \/ py_max a b = b).
Proof.
  intros Ha Hb. unfold py_max. destruct (a <? b) eqn:E.
  - split; [|split]; [| |now right]; float_order.
  - split; [|split]; [| |now left]; float_order.
Qed.

Lemma py_div_nonzero (a b : float) : (b =? 0) = false -> py_div a b = Ret (a / b).
Proof. intros H. unfold py_div. now rewrite H. Qed.

Lemma py_div_zero (a b : float) : (b =? 0) = true -> py_div a b = Raise ZeroDivisionError.
Proof. intros H. unfold py_div. now rewrite H. Qed.

(* ===================================================================== *)
(** * The risk calculator                                                *)
(* ===================================================================== *)

Section RiskCalculatorFacts.
Import RiskCalculator.

(** The three cases of [calculate_commissions]. *)
Lemma calculate_commissions_discount (amount balance price : float) :
  (0.001 <? balance) = true -> (price =? 0) = false ->
  calculate_commissions amount balance price =
    Ret {| entry_commission_usd := amount * 0.00075;
           exit_commission_usd := amount * 0.00075;
           total_commission_usd := amount * 0.00075 + amount * 0.00075;
           entry_commission_bnb := amount * 0.00075 / price;
           exit_commission_bnb := amount * 0.00075 / price;
           total_commission_bnb := (amount * 0.00075 + amount * 0.00075) / price;
           has_bnb_discount := true;
           commission_rate_used := 0.00075 |}.
Proof.
  intros Hb Hp.
  unfold calculate_commissions, commission_rate_with_bnb.
  rewrite Hb. simpl. rewrite !py_div_nonzero by exact Hp. reflexivity.
Qed.

Lemma calculate_commissions_zero_price (amount balance price : float) :
  (0.001 <? balance) = true -> (price =? 0) = true ->
  calculate_commissions amount balance price = Raise ZeroDivisionError.
Proof.
  intros Hb Hp. unfold calculate_commissions.
  rewrite Hb. simpl. rewrite !py_div_zero by exact Hp. reflexivity.
Qed.

Lemma calculate_commissions_standard (amount balance price : float) :
  (0.001 <? balance) = false ->
  calculate_commissions amount balance price =
    Ret {| entry_commission_usd := amount * 0.001;
           exit_commission_usd := amount * 0.001;
           total_commission_usd := amount * 0.001 + amount * 0.001;
           entry_commission_bnb := 0;
           exit_commission_bnb := 0;
           total_commission_bnb := 0;
           has_bnb_discount := false;
           commission_rate_used := 0.001 |}.
Proof.
  intros Hb. unfold calculate_commissions, commission_rate_standard.
  rewrite Hb. reflexivity.
Qed.

(** C9.  With a BNB balance above 0.001 the commission rate is 0.00075 and
    the BNB amounts are the USD amounts divided by the BNB price (a division
    that Python refuses when the price is zero); with a balance of at most
    0.001 the rate is 0.001 and the BNB amounts are zero.  In both cases the
    entry and exit commissions are the trade amount times the rate and the
    total is their sum. *)
Theorem calculate_commissions_rates (amount balance price : float) :
  ((0.001 <? balance) = true -> (price =? 0) = false ->
   calculate_commissions amount balance price =
     Ret {| entry_commission_usd := amount * 0.00075;
            exit_commission_usd := amount * 0.00075;
            total_commission_usd := amount * 0.00075 + amount * 0.00075;
            entry_commission_bnb := amount * 0.00075 / price;
            exit_commission_bnb := amount * 0.00075 / price;
            total_commission_bnb := (amount * 0.00075 + amount * 0.00075) / price;
            has_bnb_discount := true;
            commission_rate_used := 0.00075 |})
  /\
  ((0.001 <? balance) = true -> (price =? 0) = true ->
   calculate_commissions amount balance price = Raise ZeroDivisionError)
  /\
  ((balance <=? 0.001) = true ->
   calculate_commissions amount balance price =
     Ret {| entry_commission_usd := amount * 0.001;
            exit_commission_usd := amount * 0.001;
            total_commission_usd := amount * 0.001 + amount * 0.001;
            entry_commission_bnb := 0;
            exit_commission_bnb := 0;
            total_commission_bnb := 0;
            has_bnb_discount := false;
            commission_rate_used := 0.001 |}).
Proof.
  split; [|split].
  - apply calculate_commissions_discount.
  - apply calculate_commissions_zero_price.
  - intros Hb. apply calculate_commissions_standard, leb_not_gt, Hb.
Qed.

Lemma calculate_commissions_rates_witness :
  calculate_commissions 1000 1 300 =
    Ret {| entry_commission_usd := 0.75; exit_commission_usd := 0.75;
           total_commission_usd := 1.5;
           entry_commission_bnb := 0.0025; exit_commission_bnb := 0.0025;
           total_commission_bnb := 0.005;
           has_bnb_discount := true; commission_rate_used := 0.00075 |}
  /\ calculate_commissions 1000 1 0 = Raise ZeroDivisionError
  /\ calculate_commissions 1000 0 300 =
    Ret {| entry_commission_usd := 1; exit_commission_usd := 1;
           total_commission_usd := 2;
           entry_commission_bnb := 0; exit_commission_bnb := 0;
           total_commission_bnb := 0;
           has_bnb_discount := false; commission_rate_used := 0.001 |}.
Proof.
  pose proof (calculate_commissions_rates 1000 1 300) as (H1 & _ & _).
  pose proof (calculate_commissions_rates 1000 1 0) as (_ & H2 & _).
  pose proof (calculate_commissions_rates 1000 0 300) as (_ & _ & H3).
  split; [|split].
  - rewrite H1 by reflexivity. reflexivity.
  - rewrite H2 by reflexivity. reflexivity.
  - rewrite H3 by reflexivity. reflexivity.
Defined.

(** Without the discount nothing is required in BNB. *)
Lemma calculate_bnb_requirement_no_discount (amount balance price : float) :
  (0.001 <? balance) = false ->
  calculate_bnb_requirement amount balance price =
    Ret {| required_bnb := 0; required_bnb_with_safety := 0;
           current_bnb_balance := balance;
           is_sufficient := 0 <=? balance;
           bnb_price_usd := price; safety_multiplier := 2.5 |}.
Proof.
  intros Hb. unfold calculate_bnb_requirement, calculate_commissions.
  rewrite Hb. reflexivity.
Qed.

(** [check_trade_viability] reports insufficient BNB only after
    [calculate_bnb_requirement] found the balance insufficient. *)
Lemma insufficient_bnb_inv
    (amount target entry balance price minimum need have : float) (d : Details) :
  check_trade_viability amount target entry balance price minimum =
    Ret (false, Insufficient_BNB need have, d) ->
  exists r, calculate_bnb_requirement amount balance price = Ret r /\
            is_sufficient r = false.
Proof.
  unfold check_trade_viability. intros H.
  destruct (amount <? minimum); [discriminate|].
  destruct (calculate_commissions amount balance price) as [c|]; [|discriminate].
  simpl in H.
  destruct (calculate_bnb_requirement amount balance price) as [r|]; [|discriminate].
  simpl in H. exists r. split; [reflexivity|].
  destruct (is_sufficient r); [|reflexivity]. simpl in H.
  destruct (calculate_stop_loss entry target amount balance price) as [s|];
    [|discriminate].
  simpl in H.
  destruct (py_div (entry - stop_loss_price s) entry); [|discriminate].
  simpl in H. destruct (10 <? a * 100); [discriminate|].
  destruct (py_div target (stop_loss_amount_usd s)); [|discriminate].
  simpl in H. destruct (a0 <? 1.5); discriminate.
Qed.

(** C10.  For a non-negative BNB balance of at most 0.001,
    [calculate_bnb_requirement] requires nothing and finds the balance
    sufficient, whatever the trade amount; so for a non-negative balance
    [check_trade_viability] reports insufficient BNB only when the balance
    exceeds 0.001, and never for a balance of zero. *)
Theorem bnb_gate_without_discount (amount balance price : float) :
  (0 <=? balance) = true ->
  ((balance <=? 0.001) = true ->
   exists r, calculate_bnb_requirement amount balance price = Ret r /\
             required_bnb r = 0 /\ required_bnb_with_safety r = 0 /\
             is_sufficient r = true)
  /\
  (forall target entry minimum need have d,
     check_trade_viability amount target entry balance price minimum =
       Ret (false, Insufficient_BNB need have, d) ->
     (0.001 <? balance) = true)
  /\
  (forall target entry minimum need have d,
     check_trade_viability amount target entry 0 price minimum <>
       Ret (false, Insufficient_BNB need have, d)).
Proof.
  intros Hpos. split; [|split].
  - intros Hle. apply leb_not_gt in Hle.
    eexists. split; [apply calculate_bnb_requirement_no_discount, Hle|].
    simpl. auto.
  - intros target entry minimum need have d H.
    apply insufficient_bnb_inv in H as (r & Hr & Hs).
    destruct (0.001 <? balance) eqn:E; [reflexivity|].
    rewrite calculate_bnb_requirement_no_discount in Hr by exact E.
    injection Hr as <-. simpl in Hs. congruence.
  - intros target entry minimum need have d H.
    apply insufficient_bnb_inv in H as (r & Hr & Hs).
    rewrite calculate_bnb_requirement_no_discount in Hr by reflexivity.
    injection Hr as <-. discriminate Hs.
Qed.

Lemma bnb_gate_without_discount_witness :
  (0 <=? 0.0005) = true /\
  exists r, calculate_bnb_requirement 1000 0.0005 300 = Ret r /\
            required_bnb r = 0 /\ required_bnb_with_safety r = 0 /\
            is_sufficient r = true.
Proof.
  split; [reflexivity|].
  apply (bnb_gate_without_discount 1000 0.0005 300); reflexivity.
Defined.



End RiskCalculatorFacts.

(* ===================================================================== *)
(** * Running the store                                                  *)
(* ===================================================================== *)

Section StoreFacts.
Import SharedState TradeLogic Props.

Lemma bind_run {A B} (m : M A) (f : A -> M B) (w : world) :
  (m ≫= f) w = match m w with
               | (Ret a, w') => f a w'
               | (Raise e, w') => (Raise e, w')
               end.
Proof. reflexivity. Qed.

Lemma heap_put (l : loc) (t : TradeState) (w : world) :
  heap (put l t w) !! l = Some t.
Proof. apply lookup_insert_eq. Qed.

Lemma heap_put_ne (l l' : loc) (t : TradeState) (w : world) :
  l <> l' -> heap (put l t w) !! l' = heap w !! l'.
Proof. intros. now apply lookup_insert_ne. Qed.

Lemma put_put (l : loc) (t1 t2 : TradeState) (w : world) :
  put l t2 (put l t1 w) = put l t2 w.
Proof. unfold put, with_heap. simpl. now rewrite insert_insert_eq. Qed.

Lemma deref_run (l : loc) (t : TradeState) (w : world) :
  heap w !! l = Some t -> deref l w = (Ret t, w).
Proof. intros H. unfold deref. now rewrite H. Qed.

Lemma getattr_run {A} (l : loc) (f : TradeState -> A) (t : TradeState) (w : world) :
  heap w !! l = Some t -> getattr l f w = (Ret (f t), w).
Proof.
  intros H. unfold getattr. rewrite bind_run, (deref_run _ _ _ H). reflexivity.
Qed.

Lemma assign_run (l : loc) (kw : kwarg) (t : TradeState) (w : world) :
  heap w !! l = Some t -> assign l kw w = (Ret tt, put l (setattr t kw) w).
Proof.
  intros H. unfold assign. rewrite bind_run, (deref_run _ _ _ H). reflexivity.
Qed.

Lemma setattrs_run (l : loc) (kws : list kwarg) (t : TradeState) (w : world) :
  heap w !! l = Some t ->
  setattrs l kws w = (Ret tt, put l (fold_left setattr kws t) w).
Proof.
  revert t w. induction kws as [|kw kws IH]; intros t w H; simpl.
  - unfold put, with_heap. rewrite insert_id by exact H.
    destruct w; reflexivity.
  - rewrite bind_run, (assign_run _ _ _ _ H).
    rewrite (IH (setattr t kw)) by apply heap_put.
    now rewrite put_put.
Qed.

Lemma stored_put (w : world) (id : string) (l : loc) (t t' : TradeState) :
  stored w id l t -> trade_id t' = id -> stored (put l t' w) id l t'.
Proof.
  intros (Hd & Hh & Hi) Hi'. repeat split; [exact Hd | apply heap_put | exact Hi'].
Qed.

Lemma stored_ticks (w : world) (id : string) (l : loc) (t : TradeState) (n : nat) :
  stored w id l t -> stored (with_ticks n w) id l t.
Proof. intros H. exact H. Qed.

Lemma trade_id_setattr (t : TradeState) (kw : kwarg) :
  trade_id (setattr t kw) = trade_id t.
Proof. reflexivity. Qed.

Lemma entry_price_setattr (t : TradeState) (kw : kwarg) :
  entry_price (setattr t kw) = entry_price t.
Proof. reflexivity. Qed.

Lemma quantity_setattr (t : TradeState) (kw : kwarg) :
  quantity (setattr t kw) = quantity t.
Proof. reflexivity. Qed.

Lemma stop_loss_price_setattr (t : TradeState) (kw : kwarg) :
  stop_loss_price (setattr t kw) = stop_loss_price t.
Proof. reflexivity. Qed.

Lemma target_profit_usd_setattr (t : TradeState) (kw : kwarg) :
  target_profit_usd (setattr t kw) = target_profit_usd t.
Proof. reflexivity. Qed.

Lemma trailing_threshold_setattr (t : TradeState) (kw : kwarg) :
  trailing_threshold (setattr t kw) = trailing_threshold t.
Proof. reflexivity. Qed.

(** Attributes that no assignment of this repository changes. *)
Ltac frame :=
  rewrite ?trade_id_setattr, ?entry_price_setattr, ?quantity_setattr,
    ?stop_loss_price_setattr, ?target_profit_usd_setattr,
    ?trailing_threshold_setattr.

Lemma trade_id_setattrs (kws : list kwarg) (t : TradeState) :
  trade_id (fold_left setattr kws t) = trade_id t.
Proof. revert t. induction kws as [|kw kws IH]; intros t; simpl; [|rewrite IH]; reflexivity. Qed.

(** [update_trade] on a stored trade: the keyword arguments are assigned in
    turn, then [last_update] is set from the clock. *)
Lemma update_trade_run (w : world) (id : string) (l : loc) (t : TradeState)
    (kws : list kwarg) :
  stored w id l t ->
  update_trade id kws w =
    (Ret tt,
     put l (setattr (fold_left setattr kws t)
                    (kw_last_update (time_time w (ticks w))))
         (with_ticks (S (ticks w)) w)).
Proof.
  intros (Hd & Hh & Hi). unfold update_trade, get_state, gets.
  rewrite bind_run. cbv beta iota. rewrite Hd.
  rewrite bind_run, (setattrs_run _ _ _ _ Hh).
  rewrite bind_run. unfold time_time_call. cbv beta iota.
  erewrite assign_run by (apply heap_put).
  f_equal. unfold put, with_heap, with_ticks. simpl.
  now rewrite insert_insert_eq.
Qed.


Lemma get_trade_run (w : world) (id : string) :
  get_trade id w = (Ret (dict_get (active_trades (_system_state w)) id), w).
Proof. reflexivity. Qed.

(** ** Worlds in normal form: one object changed, the clock advanced *)

Lemma world_eta (w : world) (l : loc) (t : TradeState) :
  heap w !! l = Some t -> w = put l t (with_ticks (ticks w) w).
Proof.
  intros H. unfold put, with_heap, with_ticks. simpl.
  rewrite insert_id by exact H. now destruct w.
Qed.

Lemma nf_getattr {A} (f : TradeState -> A) (l : loc) (t : TradeState) (n : nat)
    (w : world) :
  getattr l f (put l t (with_ticks n w)) = (Ret (f t), put l t (with_ticks n w)).
Proof. apply getattr_run, heap_put. Qed.

Lemma nf_assign (kw : kwarg) (l : loc) (t : TradeState) (n : nat) (w : world) :
  assign l kw (put l t (with_ticks n w)) =
    (Ret tt, put l (setattr t kw) (with_ticks n w)).
Proof. erewrite assign_run by apply heap_put. now rewrite put_put. Qed.

Lemma nf_time (l : loc) (t : TradeState) (n : nat) (w : world) :
  time_time_call (put l t (with_ticks n w)) =
    (Ret (time_time w n), put l t (with_ticks (S n) w)).
Proof. reflexivity. Qed.

Lemma nf_update_trade (kws : list kwarg) (id : string) (l : loc)
    (t0 t : TradeState) (n : nat) (w : world) :
  stored w id l t0 -> trade_id t = id ->
  update_trade id kws (put l t (with_ticks n w)) =
    (Ret tt,
     put l (fold_left setattr (kws ++ [kw_last_update (time_time w n)]) t)
         (with_ticks (S n) w)).
Proof.
  intros Hs Hi.
  erewrite update_trade_run
    by (eapply stored_put; [apply stored_ticks, Hs | exact Hi]).
  rewrite fold_left_app. simpl fold_left.
  unfold put, with_heap, with_ticks. simpl. now rewrite insert_insert_eq.
Qed.

Lemma nf_get_trade (id : string) (l : loc) (t0 t : TradeState) (n : nat) (w : world) :
  stored w id l t0 ->
  get_trade id (put l t (with_ticks n w)) =
    (Ret (Some l), put l t (with_ticks n w)).
Proof. intros (Hd & _). rewrite get_trade_run. simpl. now rewrite Hd. Qed.

Ltac nf_step id :=
  rewrite bind_run;
  first [ rewrite nf_assign
        | rewrite nf_getattr
        | rewrite nf_time
        | erewrite (nf_update_trade _ id) by (first [eassumption | reflexivity]) ];
  cbv beta iota.

Lemma nf_trigger_exit (reason id : string) (l : loc) (t0 t : TradeState)
    (n : nat) (w : world) :
  stored w id l t0 -> trade_id t = id ->
  _trigger_exit l reason (put l t (with_ticks n w)) =
    (Ret tt,
     put l (fold_left setattr
              [kw_status (value EXITING); kw_status (value EXITING);
               kw_last_update (time_time w n)] t)
         (with_ticks (S n) w)).
Proof.
  intros Hs Hi. unfold _trigger_exit.
  nf_step id. nf_step id. rewrite trade_id_setattr, Hi.
  erewrite (nf_update_trade _ id) by (first [eassumption | reflexivity]).
  reflexivity.
Qed.

Lemma nf_handle_waiting_phase (id : string) (l : loc) (t0 t : TradeState)
    (profit : float) (n : nat) (w : world) :
  stored w id l t0 -> trade_id t = id ->
  _handle_waiting_phase l profit (put l t (with_ticks n w)) =
    if target_profit_usd t <=? profit then
      (Ret (true, None),
       put l (fold_left setattr
                [kw_trailing_active true; kw_max_profit_usd profit;
                 kw_status (value TRAILING);
                 kw_trailing_active true; kw_max_profit_usd profit;
                 kw_status (value TRAILING);
                 kw_last_update (time_time w n)] t)
           (with_ticks (S n) w))
    else (Ret (true, None), put l t (with_ticks n w)).
Proof.
  intros Hs Hi. unfold _handle_waiting_phase.
  nf_step id. destruct (target_profit_usd t <=? profit); [|reflexivity].
  do 4 nf_step id. rewrite !trade_id_setattr, Hi.
  nf_step id. reflexivity.
Qed.

Lemma nf_handle_trailing_phase (id : string) (l : loc) (t0 t : TradeState)
    (profit : float) (n : nat) (w : world) :
  stored w id l t0 -> trade_id t = id ->
  _handle_trailing_phase l profit (put l t (with_ticks n w)) =
    let raised := max_profit_usd t <? profit in
    let raise_max :=
      if raised then [kw_max_profit_usd profit; kw_max_profit_usd profit;
                      kw_last_update (time_time w n)]
      else [] in
    let n1 := if raised then S n else n in
    let new_max := py_max (max_profit_usd t) profit in
    let dropped := profit <=? new_max - trailing_threshold t in
    let eaten := profit <=? target_profit_usd t - trailing_threshold t * 0.5 in
    if dropped || eaten then
      (Ret (false, Some (if dropped then "trailing_stop" else "profit_protection")),
       put l (fold_left setattr
                (raise_max ++ [kw_status (value EXITING); kw_status (value EXITING);
                               kw_last_update (time_time w n1)]) t)
           (with_ticks (S n1) w))
    else (Ret (true, None), put l (fold_left setattr raise_max t) (with_ticks n1 w)).
Proof.
  intros Hs Hi. unfold _handle_trailing_phase, py_max.
  nf_step id. rewrite bind_run.
  destruct (max_profit_usd t <? profit) eqn:E; cbv zeta.
  - do 2 nf_step id. rewrite !trade_id_setattr, Hi.
    erewrite (nf_update_trade _ id) by (first [eassumption | reflexivity]).
    cbv beta iota. do 3 nf_step id. simpl.
    destruct ((profit <=? profit - trailing_threshold t)
              || (profit <=? target_profit_usd t - trailing_threshold t * 0.5));
      [|reflexivity].
    rewrite bind_run.
    erewrite (nf_trigger_exit _ id) by (first [eassumption | reflexivity]).
    reflexivity.
  - change ((mret tt : M unit) (put l t (with_ticks n w)))
      with (Ret tt, put l t (with_ticks n w)).
    cbv beta iota. do 3 nf_step id.
    destruct ((profit <=? max_profit_usd t - trailing_threshold t)
              || (profit <=? target_profit_usd t - trailing_threshold t * 0.5));
      [|reflexivity].
    rewrite bind_run.
    erewrite (nf_trigger_exit _ id) by (first [eassumption | reflexivity]).
    reflexivity.
Qed.

(** The code of [update_trade_with_price] does to a stored record what
    [tick] says. *)
Lemma nf_update_trade_with_price (id : string) (l : loc) (t0 t : TradeState)
    (price : float) (n : nat) (w : world) :
  stored w id l t0 -> trade_id t = id ->
  update_trade_with_price id price (put l t (with_ticks n w)) =
    let '(o, kws, n') := tick t price (time_time w) n in
    (o, put l (fold_left setattr kws t) (with_ticks n' w)).
Proof.
  intros Hs Hi. unfold update_trade_with_price, tick, profit_at.
  rewrite bind_run, (nf_get_trade _ _ _ _ _ _ Hs). cbv beta iota.
  do 5 nf_step id. frame.
  destruct (price <=? stop_loss_price t).
  - rewrite bind_run.
    erewrite (nf_trigger_exit _ id) by (first [eassumption | reflexivity]).
    reflexivity.
  - nf_step id. rewrite bind_run. unfold lift.
    change (status (setattr (setattr t (kw_current_price price))
                      (kw_current_profit_usd ((price - entry_price t) * quantity t))))
      with (status t).
    destruct (TradePhase_of (status t)) as [[]|e]; cbv beta iota.
    + nf_step id. nf_step id. reflexivity.
    + erewrite (nf_handle_waiting_phase id) by (first [eassumption | reflexivity]).
      frame.
      destruct (target_profit_usd t <=? (price - entry_price t) * quantity t);
        reflexivity.
    + erewrite (nf_handle_trailing_phase id) by (first [eassumption | reflexivity]).
      cbv zeta. frame.
      change (max_profit_usd (setattr (setattr t (kw_current_price price))
                (kw_current_profit_usd ((price - entry_price t) * quantity t))))
        with (max_profit_usd t).
      destruct (max_profit_usd t <? (price - entry_price t) * quantity t);
        match goal with
        | |- context [if ?c then (_, _) else _] => destruct c
        end; reflexivity.
    + nf_step id. nf_step id. reflexivity.
    + nf_step id. nf_step id. reflexivity.
    + reflexivity.
Qed.

Lemma update_trade_with_price_run (id : string) (l : loc) (t : TradeState)
    (price : float) (w : world) :
  stored w id l t ->
  update_trade_with_price id price w =
    let '(o, kws, n') := tick t price (time_time w) (ticks w) in
    (o, put l (fold_left setattr kws t) (with_ticks n' w)).
Proof.
  intros Hs. pose proof Hs as (_ & Hh & Hi).
  rewrite <- (nf_update_trade_with_price id l t t price (ticks w) w Hs Hi).
  f_equal. apply world_eta, Hh.
Qed.

End StoreFacts.

(* ===================================================================== *)
(** * The trade state machine                                            *)
(* ===================================================================== *)

Section TradeLogicFacts.
Import SharedState TradeLogic Props.

Lemma TradePhase_of_value (s : string) (p : TradePhase) :
  TradePhase_of s = Ret p -> s = value p.
Proof.
  unfold TradePhase_of.
  destruct (String.eqb_spec s "entering"); [intros [= <-]; assumption|].
  destruct (String.eqb_spec s "waiting"); [intros [= <-]; assumption|].
  destruct (String.eqb_spec s "trailing"); [intros [= <-]; assumption|].
  destruct (String.eqb_spec s "exiting"); [intros [= <-]; assumption|].
  destruct (String.eqb_spec s "completed"); [intros [= <-]; assumption|].
  discriminate.
Qed.


Lemma stored_heap (w : world) (id : string) (l : loc) (t : TradeState) :
  stored w id l t -> heap w !! l = Some t.
Proof. intros (_ & H & _). exact H. Qed.

(** After a call the record is still stored under its id. *)
Lemma stored_after (w : world) (id : string) (l : loc) (t : TradeState)
    (kws : list kwarg) (n : nat) :
  stored w id l t ->
  stored (put l (fold_left setattr kws t) (with_ticks n w)) id l
         (fold_left setattr kws t).
Proof.
  intros Hs. eapply stored_put; [apply stored_ticks, Hs|].
  rewrite trade_id_setattrs. apply Hs.
Qed.

(** C1.  For a stored record and a price at or below its stop-loss price,
    [update_trade_with_price] returns [(False, "stop_loss")], whatever the
    status of the record (one of the five phases or any other string) and
    whatever its profit figures; the record is left in the exiting phase
    with the price recorded. *)
Theorem stop_loss_first (w : world) (id : string) (l : loc) (t : TradeState)
    (price : float) :
  stored w id l t ->
  (price <=? stop_loss_price t) = true ->
  exists w' t',
    update_trade_with_price id price w = (Ret (false, Some "stop_loss"), w') /\
    stored w' id l t' /\
    status t' = value EXITING /\
    current_price t' = price /\
    current_profit_usd t' = profit_at t price.
Proof.
  intros Hs Hle.
  rewrite (update_trade_with_price_run id l t price w Hs).
  unfold tick. rewrite Hle. cbv zeta.
  do 2 eexists. split; [reflexivity|].
  split; [apply stored_after, Hs|]. simpl. auto.
Qed.

Lemma stop_loss_first_witness :
  exists w' t',
    update_trade_with_price "t1" 58000
      (Sample.world_with (Sample.trade "t1" "trailing" 60)) =
    (Ret (false, Some "stop_loss"), w') /\
    stored w' "t1" 0%nat t' /\
    status t' = value EXITING /\
    current_price t' = 58000 /\
    current_profit_usd t' = profit_at (Sample.trade "t1" "trailing" 60) 58000.
Proof.
  apply (stop_loss_first _ "t1" 0%nat (Sample.trade "t1" "trailing" 60) 58000).
  - repeat split; reflexivity.
  - reflexivity.
Defined.

(** One step in the trailing phase, stop-loss not hit. *)
Lemma trailing_step_run (w : world) (id : string) (l : loc) (t : TradeState)
    (price : float) :
  stored w id l t ->
  status t = value TRAILING ->
  (price <=? stop_loss_price t) = false ->
  let profit := profit_at t price in
  let new_max := py_max (max_profit_usd t) profit in
  exists w' t',
    update_trade_with_price id price w =
      (Ret (if profit <=? new_max - trailing_threshold t
            then (false, Some "trailing_stop")
            else if profit <=? target_profit_usd t - trailing_threshold t * 0.5
                 then (false, Some "profit_protection")
                 else (true, None)), w') /\
    stored w' id l t' /\
    max_profit_usd t' = new_max /\
    current_profit_usd t' = profit.
Proof.
  intros Hs Hst Hsl profit new_max.
  rewrite (update_trade_with_price_run id l t price w Hs).
  unfold tick. rewrite Hsl, Hst. cbv zeta. simpl TradePhase_of. cbv iota.
  fold profit. fold new_max.
  destruct (profit <=? new_max - trailing_threshold t) eqn:Ed;
    [|destruct (profit <=? target_profit_usd t - trailing_threshold t * 0.5) eqn:Ee];
    simpl orb; cbv iota;
    do 2 eexists; (split; [reflexivity|]); (split; [apply stored_after, Hs|]);
    subst new_max; unfold py_max;
    destruct (max_profit_usd t <? profit); simpl; auto.
Qed.

Ltac decide_cmp c b :=
  let H := fresh "H" in
  assert (H : c = b) by (clear -H; float_order).

Lemma trailing_decision_60 (profit : float) :
  ((profit <=? 50) = true ->
   trailing_decision profit 60 10 50 = (false, Some "trailing_stop")) /\
  ((50 <? profit) = true -> (profit <=? 60) = true ->
   trailing_decision profit 60 10 50 = (true, None)).
Proof.
  unfold trailing_decision, py_max. split.
  - intros H.
    assert (H1 : (60 <? profit) = false) by (clear -H; float_order).
    rewrite H1.
    assert (H2 : (profit <=? 60 - 10) = true) by (clear -H; float_order).
    now rewrite H2.
  - intros H H'.
    assert (H1 : (60 <? profit) = false) by (clear -H'; float_order).
    rewrite H1.
    assert (H2 : (profit <=? 60 - 10) = false) by (clear -H; float_order).
    rewrite H2.
    assert (H3 : (profit <=? 50 - 10 * 0.5) = false) by (clear -H; float_order).
    now rewrite H3.
Qed.

Lemma trailing_decision_52 (profit : float) :
  ((profit <=? 45) = true -> (42 <? profit) = true ->
   trailing_decision profit 52 10 50 = (false, Some "profit_protection")) /\
  ((profit <=? 42) = true ->
   trailing_decision profit 52 10 50 = (false, Some "trailing_stop")) /\
  ((45 <? profit) = true -> (profit <=? 52) = true ->
   trailing_decision profit 52 10 50 = (true, None)).
Proof.
  unfold trailing_decision, py_max. split; [|split].
  - intros H H'.
    assert (H1 : (52 <? profit) = false) by (clear -H; float_order).
    rewrite H1.
    assert (H2 : (profit <=? 52 - 10) = false) by (clear -H'; float_order).
    rewrite H2.
    assert (H3 : (profit <=? 50 - 10 * 0.5) = true) by (clear -H; float_order).
    now rewrite H3.
  - intros H.
    assert (H1 : (52 <? profit) = false) by (clear -H; float_order).
    rewrite H1.
    assert (H2 : (profit <=? 52 - 10) = true) by (clear -H; float_order).
    now rewrite H2.
  - intros H H'.
    assert (H1 : (52 <? profit) = false) by (clear -H'; float_order).
    rewrite H1.
    assert (H2 : (profit <=? 52 - 10) = false) by (clear -H; float_order).
    rewrite H2.
    assert (H3 : (profit <=? 50 - 10 * 0.5) = false) by (clear -H; float_order).
    now rewrite H3.
Qed.

(** C2.  For a stored record in the trailing phase and a price above its
    stop-loss price, one update records the profit, sets the maximal profit
    to Python's [max] of the old maximum and the profit, and then returns
    [(False, "trailing_stop")] if the profit is at most the new maximum
    minus the trailing threshold, else [(False, "profit_protection")] if
    the profit is at most the target minus half the threshold, else
    [(True, None)]; so [trailing_stop] is the reason whenever its condition
    holds, also when both do.  With target 50 and threshold 10: from a
    maximum of 60 the call exits with [trailing_stop] for every profit up
    to 50 and continues for a profit above 50 and up to 60; from a maximum
    of 52 it exits for every profit up to 45, with [profit_protection]
    above 42 and [trailing_stop] up to 42, and continues for a profit above
    45 and up to 52. *)
Theorem trailing_exit_rules (w : world) (id : string) (l : loc) (t : TradeState)
    (price : float) :
  stored w id l t ->
  status t = value TRAILING ->
  (stop_loss_price t <? price) = true ->
  let profit := profit_at t price in
  let new_max := py_max (max_profit_usd t) profit in
  exists w' t' r,
    update_trade_with_price id price w = (Ret r, w') /\
    stored w' id l t' /\
    max_profit_usd t' = new_max /\
    current_profit_usd t' = profit /\
    r = (if profit <=? new_max - trailing_threshold t
         then (false, Some "trailing_stop")
         else if profit <=? target_profit_usd t - trailing_threshold t * 0.5
              then (false, Some "profit_protection")
              else (true, None)) /\
    (target_profit_usd t = 50 -> trailing_threshold t = 10 ->
     max_profit_usd t = 60 ->
     ((profit <=? 50) = true -> r = (false, Some "trailing_stop")) /\
     ((50 <? profit) = true -> (profit <=? 60) = true -> r = (true, None))) /\
    (target_profit_usd t = 50 -> trailing_threshold t = 10 ->
     max_profit_usd t = 52 ->
     ((profit <=? 45) = true -> (42 <? profit) = true ->
      r = (false, Some "profit_protection")) /\
     ((profit <=? 42) = true -> r = (false, Some "trailing_stop")) /\
     ((45 <? profit) = true -> (profit <=? 52) = true -> r = (true, None))).
Proof.
  intros Hs Hst Hsl profit new_max.
  apply ltb_not_ge in Hsl.
  destruct (trailing_step_run w id l t price Hs Hst Hsl)
    as (w' & t' & Hrun & Hs' & Hmax & Hcur).
  exists w', t'. eexists. split; [exact Hrun|].
  split; [exact Hs'|]. split; [exact Hmax|]. split; [exact Hcur|].
  split; [reflexivity|].
  fold profit. subst new_max.
  fold (trailing_decision profit (max_profit_usd t) (trailing_threshold t)
          (target_profit_usd t)).
  split; intros -> -> ->.
  - apply trailing_decision_60.
  - apply trailing_decision_52.
Qed.

Lemma trailing_exit_rules_witness :
  exists w' t' r,
    update_trade_with_price "t1" 62700
      (Sample.world_with (Sample.trade "t1" "trailing" 52)) = (Ret r, w') /\
    stored w' "t1" 0%nat t' /\
    max_profit_usd t' = 52 /\
    current_profit_usd t' = 45 /\
    r = (false, Some "profit_protection").
Proof.
  destruct (trailing_exit_rules
              (Sample.world_with (Sample.trade "t1" "trailing" 52))
              "t1" 0%nat (Sample.trade "t1" "trailing" 52) 62700)
    as (w' & t' & r & H1 & H2 & H3 & H4 & H5 & _).
  - repeat split; reflexivity.
  - reflexivity.
  - reflexivity.
  - exists w', t', r.
    split; [exact H1|]. split; [exact H2|]. split; [exact H3|].
    split; [exact H4|exact H5].
Defined.

(** ** The maximal profit in the trailing phase *)





(** The world after one call, whatever the call returns. *)
Lemma update_trade_with_price_world (id : string) (l : loc) (t : TradeState)
    (price : float) (w : world) :
  stored w id l t ->
  let kws := snd (fst (tick t price (time_time w) (ticks w))) in
  stored (snd (update_trade_with_price id price w)) id l (fold_left setattr kws t).
Proof.
  intros Hs. rewrite (update_trade_with_price_run id l t price w Hs).
  destruct (tick t price (time_time w) (ticks w)) as [[o kws] n']. simpl.
  apply stored_after, Hs.
Qed.




End TradeLogicFacts.

(* ===================================================================== *)
(** * The shared state store                                             *)
(* ===================================================================== *)

Section SharedStateFacts.
Import SharedState Props.

Lemma dict_get_set_eq {V} (d : dict V) (k : string) (v : V) :
  dict_get (dict_set d k v) k = Some v.
Proof.
  induction d as [|[k' v'] d IH]; simpl.
  - now rewrite String.eqb_refl.
  - destruct (String.eqb k k') eqn:E; simpl; rewrite E; [reflexivity|exact IH].
Qed.

Lemma dict_get_set_ne {V} (d : dict V) (k k' : string) (v : V) :
  k <> k' -> dict_get (dict_set d k v) k' = dict_get d k'.
Proof.
  intros Hne. induction d as [|[k0 v0] d IH]; simpl.
  - destruct (String.eqb_spec k' k); [congruence|reflexivity].
  - destruct (String.eqb_spec k k0); simpl.
    + subst k0. destruct (String.eqb_spec k' k); [congruence|reflexivity].
    + destruct (String.eqb k' k0); [reflexivity|exact IH].
Qed.

Lemma dict_get_del_eq {V} (d : dict V) (k : string) :
  dict_get (dict_del d k) k = None.
Proof.
  induction d as [|[k' v'] d IH]; simpl; [reflexivity|].
  destruct (String.eqb k k') eqn:E; simpl; [exact IH|].
  rewrite E. exact IH.
Qed.

Lemma dict_get_del_ne {V} (d : dict V) (k k' : string) :
  k <> k' -> dict_get (dict_del d k) k' = dict_get d k'.
Proof.
  intros Hne. induction d as [|[k0 v0] d IH]; simpl; [reflexivity|].
  destruct (String.eqb_spec k k0); simpl.
  - subst k0. destruct (String.eqb_spec k' k); [congruence|exact IH].
  - destruct (String.eqb k' k0); [reflexivity|exact IH].
Qed.

(** Serialising the trades only reads the world. *)
Lemma trades_to_json_world (trades : list (string * loc)) :
  forall (acc : dict json) (w : world), snd (trades_to_json trades acc w) = w.
Proof.
  induction trades as [|[id l] trades IH]; intros acc w; simpl; [reflexivity|].
  rewrite bind_run. unfold deref.
  destruct (heap w !! l); [apply IH|reflexivity].
Qed.

(** It depends on the heap alone. *)
Lemma trades_to_json_heap (trades : list (string * loc)) :
  forall (acc : dict json) (w1 w2 : world),
    heap w1 = heap w2 ->
    fst (trades_to_json trades acc w1) = fst (trades_to_json trades acc w2).
Proof.
  induction trades as [|[id l] trades IH]; intros acc w1 w2 Hh; simpl;
    [reflexivity|].
  rewrite !bind_run. unfold deref. rewrite Hh.
  destruct (heap w2 !! l); [apply IH, Hh|reflexivity].
Qed.

(** It succeeds when every stored reference has an object. *)
Lemma trades_to_json_live (trades : list (string * loc)) :
  forall (acc : dict json) (w : world),
    Forall (fun kv => is_Some (heap w !! snd kv)) trades ->
    exists r, trades_to_json trades acc w = (Ret r, w).
Proof.
  induction trades as [|[id l] trades IH]; intros acc w Hl; simpl.
  - eexists. reflexivity.
  - inversion Hl as [|? ? [t Ht] Hrest]; subst. simpl in Ht.
    rewrite bind_run, (deref_run _ _ _ Ht). apply IH, Hrest.
Qed.

(** [save_state] step by step: the old file becomes the backup, the clock
    is read for [last_update], the trades are serialised, the clock is read
    for [saved_at], the file is written; if serialising fails the error is
    logged. *)
Lemma save_state_run (force : bool) (w : world) :
  let backup := match state_file w with
                | Some c => Some c
                | None => backup_file w
                end in
  let s := set_sys_last_update (JFloat (time_time w (ticks w))) (_system_state w) in
  let w1 := with_state s (with_ticks (S (ticks w)) (with_files (state_file w) backup w)) in
  save_state force w =
    match fst (trades_to_json (active_trades (_system_state w)) [] w) with
    | Ret trades =>
        (Ret tt,
         with_files
           (Some (Parsed (state_dict trades s (datetime_now w (S (ticks w))))))
           backup
           (with_ticks (S (S (ticks w))) w1))
    | Raise e => (Ret tt, with_errors (errors w ++ [Error_saving_state e]) w1)
    end.
Proof.
  cbv zeta. unfold save_state, try_except.
  rewrite bind_run. unfold gets at 1. cbv beta iota.
  rewrite bind_run.
  set (backup := match state_file w with Some c => Some c | None => backup_file w end).
  set (w0 := with_files (state_file w) backup w).
  assert (H0 : (match state_file w with
                | Some c => modify (fun w => with_files (state_file w) (Some c) w)
                | None => mret tt
                end) w = (Ret tt, w0)).
  { unfold w0, backup. destruct (state_file w) eqn:E.
    - unfold modify. now rewrite E.
    - destruct w; simpl in *; subst; reflexivity. }
  rewrite H0. cbv beta iota.
  unfold time_time_call, assign_state, get_state, gets, set_state, modify,
    datetime_now_isoformat, logger_error.
  repeat (rewrite bind_run; cbv beta iota).
  cbn [active_trades set_sys_last_update _system_state with_state].
  match goal with
  | |- context [trades_to_json ?tr [] ?w'] =>
      pose proof (trades_to_json_world tr [] w') as Hw;
      pose proof (trades_to_json_heap tr [] w' w eq_refl) as Hf;
      destruct (trades_to_json tr [] w') as [o w'']
  end.
  simpl in Hw, Hf. subst w''. rewrite <- Hf.
  destruct o as [trades|e]; repeat (rewrite bind_run; cbv beta iota); reflexivity.
Qed.

(** [save_state] never raises and leaves the heap and the state alone,
    except for [last_update]. *)
Lemma save_state_frame (force : bool) (w : world) :
  exists w',
    save_state force w = (Ret tt, w') /\
    heap w' = heap w /\
    next_loc w' = next_loc w /\
    _system_state w' =
      set_sys_last_update (JFloat (time_time w (ticks w))) (_system_state w).
Proof.
  rewrite save_state_run. cbv zeta.
  destruct (fst (trades_to_json _ [] w)); eexists; split; reflexivity || (repeat split).
Qed.

(** ** Adding a trade under an id that is taken *)




(** ** What [get_trade] and [get_all_trades] return *)




(** ** Saving twice *)

(** C6, as the code has it: every [save_state] reads the clock and writes
    it as [last_update], so two saves in a row differ in that field too.
    Here the two files differ after [saved_at] is taken out of both. *)
Lemma save_twice_differs_example :
  let w0 := Sample.world_with (Sample.trade "t1" "waiting" 0) in
  let w1 := snd (save_state false w0) in
  let w2 := snd (save_state false w1) in
  content_without ["saved_at"] (state_file w1) <>
  content_without ["saved_at"] (state_file w2).
Proof.
  cbv zeta. intros H.
  set (last := fun c : option (dict json) =>
                 match c with
                 | Some d => match dict_get d "last_update" with
                             | Some (JFloat f) => f =? 1700000002
                             | _ => false
                             end
                 | None => false
                 end).
  apply (f_equal last) in H. vm_compute in H. discriminate H.
Qed.

(** C6, amended.  When every stored reference has an object, two calls of
    [save_state] in a row write two state dictionaries that are equal once
    [saved_at] and [last_update] are taken out of both; [last_update] holds
    the clock reading of each call, and the backup file holds what the
    first call wrote. *)
Theorem save_twice_same_but_times (w : world) (force1 force2 : bool) :
  live w ->
  let w1 := snd (save_state force1 w) in
  let w2 := snd (save_state force2 w1) in
  exists d1 d2,
    state_file w1 = Some (Parsed (JObj d1)) /\
    state_file w2 = Some (Parsed (JObj d2)) /\
    backup_file w2 = Some (Parsed (JObj d1)) /\
    content_without ["saved_at"; "last_update"] (state_file w1) =
    content_without ["saved_at"; "last_update"] (state_file w2) /\
    dict_get d1 "last_update" = Some (JFloat (time_time w (ticks w))) /\
    dict_get d2 "last_update" = Some (JFloat (time_time w (S (S (ticks w))))).
Proof.
  intros Hl. cbv zeta.
  destruct (trades_to_json_live _ [] w Hl) as [trades Ht].
  rewrite (save_state_run force1 w). cbv zeta. rewrite Ht. cbn [fst snd].
  match goal with
  | |- context [save_state force2 ?w1] =>
      rewrite (save_state_run force2 w1); cbv zeta;
      pose proof (trades_to_json_heap (active_trades (_system_state w)) [] w1 w
                    eq_refl) as Hf
  end.
  rewrite Ht in Hf. cbn [fst] in Hf.
  cbn [_system_state with_files with_ticks with_state active_trades
       set_sys_last_update] in *.
  rewrite Hf. cbn [fst snd].
  do 2 eexists. repeat split.
Qed.

Lemma save_twice_same_but_times_witness :
  let w := Sample.world_with (Sample.trade "t1" "waiting" 0) in
  let w1 := snd (save_state false w) in
  let w2 := snd (save_state false w1) in
  exists d1 d2,
    state_file w1 = Some (Parsed (JObj d1)) /\
    state_file w2 = Some (Parsed (JObj d2)) /\
    backup_file w2 = Some (Parsed (JObj d1)) /\
    content_without ["saved_at"; "last_update"] (state_file w1) =
    content_without ["saved_at"; "last_update"] (state_file w2) /\
    dict_get d1 "last_update" = Some (JFloat (time_time w (ticks w))) /\
    dict_get d2 "last_update" = Some (JFloat (time_time w (S (S (ticks w))))).
Proof.
  refine (save_twice_same_but_times
            (Sample.world_with (Sample.trade "t1" "waiting" 0)) false false _).
  repeat constructor. exists (Sample.trade "t1" "waiting" 0). reflexivity.
Defined.

(** ** Loading *)

Lemma bind_lift {A B} (o : outcome A) (f : A -> M B) (w : world) :
  (lift o ≫= f) w = match o with
                    | Ret a => f a w
                    | Raise e => (Raise e, w)
                    end.
Proof. destruct o; reflexivity. Qed.

Lemma extends_refl (w : world) : extends w w.
Proof.
  repeat split; auto. exists []. now rewrite app_nil_r.
Qed.

Lemma extends_trans (w1 w2 w3 : world) :
  extends w1 w2 -> extends w2 w3 -> extends w1 w3.
Proof.
  intros (A1 & A2 & A3 & A4 & A5 & A6 & A7 & A8 & m1 & A9)
         (B1 & B2 & B3 & B4 & B5 & B6 & B7 & B8 & m2 & B9).
  repeat split; try congruence.
  - lia.
  - intros l Hl. rewrite B8 by lia. now apply A8.
  - exists (m1 ++ m2). rewrite B9, A9. now rewrite app_assoc.
Qed.

Lemma extends_new (t : TradeState) (w : world) :
  extends w (snd (new t w)).
Proof.
  unfold new. simpl. repeat split; auto; try (simpl; lia).
  - intros. apply lookup_insert_ne. lia.
  - exists []. now rewrite app_nil_r.
Qed.

Lemma extends_log (r : log_record) (w : world) :
  extends w (snd (logger_error r w)).
Proof.
  unfold logger_error, modify. simpl. repeat split; auto. now exists [r].
Qed.

(** The tolerant loop: it never raises; it adds an object for every record
    the constructor accepts and reports every record it rejects. *)
Lemma restore_each_spec (records : list (string * json)) :
  forall (acc : dict loc) (w : world),
    exists acc' w',
      restore_each records acc w = (Ret acc', w') /\
      extends w w' /\
      (forall id, ~ In id (map fst records) -> dict_get acc' id = dict_get acc id) /\
      (NoDup (map fst records) ->
       forall id trade_data, In (id, trade_data) records ->
         match TradeState_of_kwargs trade_data with
         | Ret t => exists l, dict_get acc' id = Some l /\ heap w' !! l = Some t
         | Raise e => dict_get acc' id = dict_get acc id /\
                      In (Error_restoring_trade id e) (errors w')
         end) /\
      (Forall (fun kv => exists t, TradeState_of_kwargs (snd kv) = Ret t) records ->
       errors w' = errors w).
Proof.
  induction records as [|[id data] records IH]; intros acc w.
  - exists acc, w. split; [reflexivity|]. split; [apply extends_refl|].
    split; [reflexivity|]. split; [intros _ ? ? []|reflexivity].
  - cbn [restore_each]. rewrite bind_run. unfold try_except.
    rewrite bind_lift.
    destruct (TradeState_of_kwargs data) as [t|e] eqn:Ed.
    + rewrite bind_run.
      pose proof (extends_new t w) as Hnew.
      assert (Hobj : heap (snd (new t w)) !! next_loc w = Some t)
        by apply lookup_insert_eq.
      assert (Hnext : next_loc (snd (new t w)) = S (next_loc w)) by reflexivity.
      change (new t w) with (Ret (next_loc w), snd (new t w)).
      cbv beta iota.
      change ((mret (dict_set acc id (next_loc w)) : M (dict loc)) (snd (new t w)))
        with (Ret (dict_set acc id (next_loc w)), snd (new t w)).
      cbv beta iota.
      destruct (IH (dict_set acc id (next_loc w)) (snd (new t w)))
        as (acc' & w' & Hrun & Hext & Hout & Hin & Herr).
      exists acc', w'. split; [exact Hrun|].
      split; [eapply extends_trans; eassumption|].
      split; [|split].
      * intros id' Hni. simpl in Hni.
        rewrite Hout by tauto. apply dict_get_set_ne. tauto.
      * intros Hnd id' data' Hi. simpl in Hnd. apply NoDup_cons in Hnd as [Hni Hnd].
        rewrite list_elem_of_In in Hni.
        destruct Hi as [Heq|Hi].
        -- injection Heq as <- <-. rewrite Ed.
           exists (next_loc w). rewrite Hout by exact Hni.
           split; [apply dict_get_set_eq|].
           destruct Hext as (_ & _ & _ & _ & _ & _ & _ & Hheap & _).
           rewrite Hheap by lia. exact Hobj.
        -- assert (Hne : id <> id').
           { intros ->. apply Hni. apply (in_map fst) in Hi. exact Hi. }
           specialize (Hin Hnd id' data' Hi).
           destruct (TradeState_of_kwargs data'); [exact Hin|].
           destruct Hin as [Hget Herr']. split; [|exact Herr'].
           rewrite Hget. now apply dict_get_set_ne.
      * intros Hall. inversion Hall; subst. now rewrite Herr.
    + unfold logger_error, modify. rewrite bind_run. cbv beta iota.
      change ((mret acc : M (dict loc))
                (with_errors (errors w ++ [Error_restoring_trade id e]) w))
        with (Ret acc, with_errors (errors w ++ [Error_restoring_trade id e]) w).
      cbv beta iota.
      pose proof (extends_log (Error_restoring_trade id e) w) as Hlog.
      unfold logger_error, modify in Hlog. simpl in Hlog.
      destruct (IH acc (with_errors (errors w ++ [Error_restoring_trade id e]) w))
        as (acc' & w' & Hrun & Hext & Hout & Hin & Herr).
      exists acc', w'. split; [exact Hrun|].
      split; [eapply extends_trans; eassumption|].
      split; [|split].
      * intros id' Hni. simpl in Hni. apply Hout. tauto.
      * intros Hnd id' data' Hi. simpl in Hnd. apply NoDup_cons in Hnd as [Hni Hnd].
        rewrite list_elem_of_In in Hni.
        destruct Hi as [Heq|Hi].
        -- injection Heq as <- <-. rewrite Ed.
           split; [apply Hout, Hni|].
           destruct Hext as (_ & _ & _ & _ & _ & _ & _ & _ & more & Hmore).
           rewrite Hmore. simpl. apply in_or_app. left.
           apply in_or_app. right. now left.
        -- exact (Hin Hnd id' data' Hi).
      * intros Hall. inversion Hall as [|? ? [t Ht] ?]; subst.
        simpl in Ht. congruence.
Qed.

(** The strict loop adds objects and nothing else, whether it ends or
    raises. *)
Lemma restore_all_extends (records : list (string * json)) :
  forall (acc : dict loc) (w : world),
    extends w (snd (restore_all records acc w)) /\
    errors (snd (restore_all records acc w)) = errors w.
Proof.
  induction records as [|[id data] records IH]; intros acc w.
  - split; [apply extends_refl|reflexivity].
  - cbn [restore_all]. rewrite bind_lift.
    destruct (TradeState_of_kwargs data) as [t|e].
    + rewrite bind_run.
      change (new t w) with (Ret (next_loc w), snd (new t w)). cbv beta iota.
      destruct (IH (dict_set acc id (next_loc w)) (snd (new t w))) as [He Hr].
      split; [|exact Hr].
      eapply extends_trans; [apply extends_new|exact He].
    + split; [apply extends_refl|reflexivity].
Qed.

(** When the constructor accepts every record, the strict loop does what
    the tolerant loop does. *)
Lemma restore_all_ok (records : list (string * json)) :
  forall (acc : dict loc) (w : world),
    Forall (fun kv => exists t, TradeState_of_kwargs (snd kv) = Ret t) records ->
    restore_all records acc w = restore_each records acc w.
Proof.
  induction records as [|[id data] records IH]; intros acc w Hall;
    [reflexivity|].
  inversion Hall as [|? ? [t Ht] Hrest]; subst. simpl in Ht.
  cbn [restore_all restore_each]. rewrite bind_lift. unfold try_except.
  rewrite bind_run, bind_lift. rewrite Ht.
  rewrite bind_run.
  change (new t w) with (Ret (next_loc w), snd (new t w)). cbv beta iota.
  change ((mret (dict_set acc id (next_loc w)) : M (dict loc)) (snd (new t w)))
    with (Ret (dict_set acc id (next_loc w)), snd (new t w)).
  cbv beta iota. apply IH, Hrest.
Qed.


(** [assign_state] as an equation. *)
Lemma assign_state_run (f : SystemState -> SystemState) (w : world) :
  assign_state f w = (Ret tt, with_state (f (_system_state w)) w).
Proof. reflexivity. Qed.

(** A raising [load_primary] has assigned nothing. *)
Lemma load_primary_raise (c : content) (w : world) (e : exn) :
  fst (load_primary c w) = Raise e ->
  extends w (snd (load_primary c w)) /\
  errors (snd (load_primary c w)) = errors w.
Proof.
  unfold load_primary. rewrite bind_lift.
  destruct (json_load c) as [doc|e1]; [|intros _; split; [apply extends_refl|reflexivity]].
  rewrite bind_lift.
  destruct (get_default doc "active_trades" (JObj [])) as [trades|e2] eqn:Eg;
    [|intros _; split; [apply extends_refl|reflexivity]].
  rewrite bind_lift.
  destruct (items trades) as [records|e3];
    [|intros _; split; [apply extends_refl|reflexivity]].
  rewrite bind_run.
  pose proof (restore_all_extends records [] w) as [He Hr].
  destruct (restore_all records [] w) as [[active|e4] w1];
    [|intros _; split; assumption].
  intros H. exfalso. revert H.
  destruct doc; try discriminate Eg.
  unfold get_default, time_time_call.
  repeat first [ rewrite bind_lift | rewrite bind_run, assign_state_run
               | rewrite bind_run ]; cbv beta iota.
  discriminate.
Qed.


(** [_try_load_backup] never raises and touches only the trades. *)
Lemma try_load_backup_frame (w : world) :
  exists w',
    _try_load_backup w = (Ret tt, w') /\
    _system_state w' =
      set_active_trades (active_trades (_system_state w')) (_system_state w).
Proof.
  unfold _try_load_backup, try_except.
  rewrite bind_run. unfold gets at 1. cbv beta iota.
  destruct (backup_file w) as [c|].
  2:{ exists w. split; [reflexivity|]. now destruct (_system_state w). }
  unfold load_backup. rewrite bind_lift.
  assert (Hsame : _system_state w =
                  set_active_trades (active_trades (_system_state w))
                                    (_system_state w))
    by now destruct (_system_state w).
  destruct (json_load c) as [doc|e1];
    [|eexists; split; [reflexivity|exact Hsame]].
  rewrite bind_lift.
  destruct (get_default doc "active_trades" (JObj [])) as [trades|e2];
    [|eexists; split; [reflexivity|exact Hsame]].
  rewrite bind_lift.
  destruct (items trades) as [records|e3];
    [|eexists; split; [reflexivity|exact Hsame]].
  rewrite bind_run.
  destruct (restore_each_spec records [] w)
    as (acc' & w1 & Hrun & Hext & _).
  rewrite Hrun. cbv beta iota. rewrite assign_state_run.
  destruct Hext as (Hst & _).
  eexists. split; [reflexivity|]. simpl. now rewrite Hst.
Qed.

(** [load_primary] once the trades are restored: the rest cannot fail. *)
Lemma load_primary_run (doc : json) (records : list (string * json))
    (w : world) :
  get_default doc "active_trades" (JObj []) = Ret (JObj records) ->
  load_primary (Parsed doc) w =
    match restore_all records [] w with
    | (Ret active, w1) =>
        (Ret tt,
         with_state
           {| active_trades := active;
              market_data :=
                match get_default doc "market_data" (JObj []) with
                | Ret v => v | Raise _ => JObj [] end;
              balance_data :=
                match get_default doc "balance_data" (JObj []) with
                | Ret v => v | Raise _ => JObj [] end;
              sys_last_update :=
                match get_default doc "last_update"
                        (JFloat (time_time w1 (ticks w1))) with
                | Ret v => v | Raise _ => JNull end;
              bot_running := false;
              websocket_connected := false |}
           (with_ticks (S (ticks w1)) w1))
    | (Raise e, w1) => (Raise e, w1)
    end.
Proof.
  intros Hg. unfold load_primary.
  rewrite bind_lift. simpl json_load. cbv beta iota.
  rewrite bind_lift, Hg. cbv beta iota.
  rewrite bind_lift. simpl items. cbv beta iota.
  rewrite bind_run.
  destruct (restore_all records [] w) as [[active|e] w1]; [|reflexivity].
  destruct doc; try discriminate Hg.
  unfold get_default, time_time_call.
  repeat first [ rewrite bind_lift | rewrite bind_run, assign_state_run
               | rewrite bind_run ]; cbv beta iota.
  rewrite assign_state_run. reflexivity.
Qed.



(** [load_state] never raises, and flags that are off stay off. *)
Lemma load_state_flags (w : world) :
  exists w',
    load_state w = (Ret tt, w') /\
    (bot_running (_system_state w) = false ->
     bot_running (_system_state w') = false) /\
    (websocket_connected (_system_state w) = false ->
     websocket_connected (_system_state w') = false).
Proof.
  unfold load_state, try_except.
  rewrite bind_run. unfold gets at 1. cbv beta iota.
  destruct (state_file w) as [c|]; [|exists w; auto].
  destruct (load_primary c w) as [[[]|e] w1] eqn:Erun.
  - exists w1. split; [reflexivity|].
    destruct c as [|doc].
    { unfold load_primary in Erun. rewrite bind_lift in Erun. discriminate Erun. }
    unfold load_primary in Erun. rewrite bind_lift in Erun.
    simpl json_load in Erun. cbv beta iota in Erun.
    rewrite bind_lift in Erun.
    destruct (get_default doc "active_trades" (JObj [])) as [trades|] eqn:Eg;
      [|discriminate Erun].
    rewrite bind_lift in Erun.
    destruct trades; try discriminate Erun.
    pose proof (load_primary_run doc d w Eg) as Hrun.
    unfold load_primary in Hrun. rewrite bind_lift in Hrun.
    simpl json_load in Hrun. cbv beta iota in Hrun.
    rewrite bind_lift, Eg in Hrun. cbv beta iota in Hrun.
    rewrite bind_lift in Hrun. rewrite Hrun in Erun.
    destruct (restore_all d [] w) as [[active|] w2]; [|discriminate Erun].
    injection Erun as <-. auto.
  - pose proof (load_primary_raise c w e) as Hr. rewrite Erun in Hr.
    destruct (Hr eq_refl) as [(Hst & _) _]. simpl in Hst.
    rewrite bind_run. unfold logger_error, modify. cbv beta iota.
    match goal with
    | |- context [_try_load_backup ?w2] =>
        destruct (try_load_backup_frame w2) as (w' & Hrun & Hstate)
    end.
    exists w'. split; [exact Hrun|].
    rewrite Hstate. simpl. rewrite Hst. auto.
Qed.




End SharedStateFacts.

(* ===================================================================== *)
(** * More on the risk calculator                                        *)
(* ===================================================================== *)

Section MoreRiskCalculator.
Import RiskCalculator Props.

(** Every result of [check_trade_viability], read backwards: what was
    computed and which tests passed before it was returned. *)
Lemma check_trade_viability_inv
    (amount target entry balance price minimum : float)
    (ok : bool) (v : viability) (d : Details) :
  check_trade_viability amount target entry balance price minimum =
    Ret (ok, v, d) ->
  (v = Trade_amount_too_small amount minimum /\ ok = false /\
   (amount <? minimum) = true /\ d = no_details)
  \/
  ((amount <? minimum) = false /\
   exists c r,
     calculate_commissions amount balance price = Ret c /\
     calculate_bnb_requirement amount balance price = Ret r /\
     commissions d = Some c /\ bnb_requirement d = Some r /\
     ((v = Insufficient_BNB (required_bnb_with_safety r) balance /\
       ok = false /\ is_sufficient r = false /\ stop_loss d = None)
      \/
      (is_sufficient r = true /\
       exists s,
         calculate_stop_loss entry target amount balance price = Ret s /\
         stop_loss d = Some s /\
         let percent := (entry - stop_loss_price s) / entry * 100 in
         ((v = Stop_loss_too_large percent /\ ok = false /\
           (10 <? percent) = true /\ risk_reward_ratio d = None)
          \/
          ((10 <? percent) = false /\
           trailing d = Some (calculate_trailing_thresholds target 20) /\
           let ratio := target / stop_loss_amount_usd s in
           (stop_loss_amount_usd s =? 0) = false /\
           risk_reward_ratio d = Some ratio /\
           ((v = Poor_risk_reward_ratio ratio /\ ok = false /\
             (ratio <? 1.5) = true)
            \/
            (v = Trade_viable /\ ok = true /\ (ratio <? 1.5) = false))))))).
Proof.
  unfold check_trade_viability. intros H.
  unfold mret, outcome_ret in H.
  destruct (amount <? minimum) eqn:Emin.
  { inversion H; subst. left. auto. }
  right. split; [reflexivity|].
  destruct (calculate_commissions amount balance price) as [c|] eqn:Ec;
    [|discriminate]. simpl in H.
  destruct (calculate_bnb_requirement amount balance price) as [r|] eqn:Er;
    [|discriminate]. simpl in H.
  exists c, r. split; [reflexivity|]. split; [reflexivity|].
  destruct (is_sufficient r) eqn:Es; simpl in H.
  2:{ inversion H; subst. simpl. split; [reflexivity|].
      split; [reflexivity|]. left. auto. }
  destruct (calculate_stop_loss entry target amount balance price) as [s|] eqn:Esl;
    [|discriminate]. simpl in H.
  destruct (entry =? 0) eqn:Ee;
    [rewrite (py_div_zero _ _ Ee) in H; discriminate
    |rewrite (py_div_nonzero _ _ Ee) in H; simpl in H].
  destruct (10 <? (entry - stop_loss_price s) / entry * 100) eqn:Ep.
  { inversion H; subst. simpl. split; [reflexivity|].
    split; [reflexivity|]. right. split; [reflexivity|].
    exists s. split; [reflexivity|]. split; [reflexivity|].
    left. auto. }
  destruct (stop_loss_amount_usd s =? 0) eqn:Ea;
    [rewrite (py_div_zero _ _ Ea) in H; discriminate
    |rewrite (py_div_nonzero _ _ Ea) in H; simpl in H].
  destruct (target / stop_loss_amount_usd s <? 1.5) eqn:Erat;
    inversion H; subst; simpl;
    (split; [reflexivity|]); (split; [reflexivity|]); right;
    (split; [reflexivity|]); exists s;
    (split; [reflexivity|]); (split; [reflexivity|]); right;
    (split; [exact Ep|]); (split; [reflexivity|]);
    (split; [exact Ea|]); (split; [reflexivity|]); [left|right]; auto.
Qed.

(** A viable result is [Trade_viable] and has its stop-loss. *)
Lemma viable_inv_stop_loss
    (amount target entry balance price minimum : float)
    (v : viability) (d : Details) :
  check_trade_viability amount target entry balance price minimum =
    Ret (true, v, d) ->
  v = Trade_viable /\ exists s, stop_loss d = Some s.
Proof.
  intros H. apply check_trade_viability_inv in H.
  destruct H as [(_ & Hok & _)|(Hmin & c & r & Hc & Hr & Hdc & Hdr & H)];
    [discriminate|].
  destruct H as [(_ & Hok & _)|(Hs & s & Hsl & Hds & H)]; [discriminate|].
  cbv zeta in H.
  destruct H as [(_ & Hok & _)|(Hp & Hdt & Ha & Hdrr & H)]; [discriminate|].
  destruct H as [(_ & Hok & _)|(Hv & _ & Hrat)]; [discriminate|].
  split; [exact Hv|]. exists s. exact Hds.
Qed.

(** X1.  A trade that [check_trade_viability] reports viable has passed
    every gate: the amount is not below the minimum, the BNB balance covers
    the requirement, the stop-loss is at most 10 percent of the entry
    price, the stop-loss amount is not zero and the ratio of target to
    stop-loss amount is not below 1.5; the details hold all five
    computations. *)
Theorem viable_passed_every_gate
    (amount target entry balance price minimum : float)
    (v : viability) (d : Details) :
  check_trade_viability amount target entry balance price minimum =
    Ret (true, v, d) ->
  v = Trade_viable /\
  (amount <? minimum) = false /\
  exists c r s,
    calculate_commissions amount balance price = Ret c /\
    calculate_bnb_requirement amount balance price = Ret r /\
    calculate_stop_loss entry target amount balance price = Ret s /\
    is_sufficient r = true /\
    (10 <? (entry - stop_loss_price s) / entry * 100) = false /\
    (stop_loss_amount_usd s =? 0) = false /\
    (target / stop_loss_amount_usd s <? 1.5) = false /\
    d = {| commissions := Some c; bnb_requirement := Some r;
           stop_loss := Some s;
           trailing := Some (calculate_trailing_thresholds target 20);
           risk_reward_ratio := Some (target / stop_loss_amount_usd s) |}.
Proof.
  intros H. apply check_trade_viability_inv in H.
  destruct H as [(_ & Hok & _)|(Hmin & c & r & Hc & Hr & Hdc & Hdr & H)];
    [discriminate|].
  destruct H as [(_ & Hok & _)|(Hs & s & Hsl & Hds & H)]; [discriminate|].
  cbv zeta in H.
  destruct H as [(_ & Hok & _)|(Hp & Hdt & Ha & Hdrr & H)]; [discriminate|].
  destruct H as [(_ & Hok & _)|(Hv & _ & Hrat)]; [discriminate|].
  split; [exact Hv|]. split; [exact Hmin|].
  exists c, r, s. repeat (split; [assumption|]).
  destruct d; simpl in *; congruence.
Qed.

Lemma viable_passed_every_gate_witness :
  Trade_viable = Trade_viable /\
  (1000 <? 10) = false /\
  exists c r s,
    calculate_commissions 1000 0 300 = Ret c /\
    calculate_bnb_requirement 1000 0 300 = Ret r /\
    calculate_stop_loss 60000 50 1000 0 300 = Ret s /\
    is_sufficient r = true /\
    (10 <? (60000 - stop_loss_price s) / 60000 * 100) = false /\
    (stop_loss_amount_usd s =? 0) = false /\
    (50 / stop_loss_amount_usd s <? 1.5) = false /\
    snd (match check_trade_viability 1000 50 60000 0 300 10 with
         | Ret x => x
         | Raise _ => (false, Trade_viable, no_details)
         end) =
      {| commissions := Some c; bnb_requirement := Some r;
         stop_loss := Some s;
         trailing := Some (calculate_trailing_thresholds 50 20);
         risk_reward_ratio := Some (50 / stop_loss_amount_usd s) |}.
Proof.
  exact (viable_passed_every_gate 1000 50 60000 0 300 10 _ _ eq_refl).
Defined.

(** X2.  Every rejection of [check_trade_viability] names the first test
    that failed: too small an amount (nothing else is computed), an
    insufficient BNB balance, a stop-loss above 10 percent of the entry
    price, or a ratio of target to stop-loss amount below 1.5; the tests
    before it have passed. *)
Theorem rejection_names_failed_test
    (amount target entry balance price minimum : float)
    (v : viability) (d : Details) :
  check_trade_viability amount target entry balance price minimum =
    Ret (false, v, d) ->
  match v with
  | Trade_amount_too_small a m =>
      a = amount /\ m = minimum /\ (amount <? minimum) = true /\
      d = no_details
  | Insufficient_BNB need have =>
      (amount <? minimum) = false /\ have = balance /\
      exists r, calculate_bnb_requirement amount balance price = Ret r /\
                need = required_bnb_with_safety r /\
                (need <=? balance) = false
  | Stop_loss_too_large percent =>
      (amount <? minimum) = false /\
      exists r s,
        calculate_bnb_requirement amount balance price = Ret r /\
        is_sufficient r = true /\
        calculate_stop_loss entry target amount balance price = Ret s /\
        percent = (entry - stop_loss_price s) / entry * 100 /\
        (10 <? percent) = true
  | Poor_risk_reward_ratio ratio =>
      (amount <? minimum) = false /\
      exists r s,
        calculate_bnb_requirement amount balance price = Ret r /\
        is_sufficient r = true /\
        calculate_stop_loss entry target amount balance price = Ret s /\
        (10 <? (entry - stop_loss_price s) / entry * 100) = false /\
        ratio = target / stop_loss_amount_usd s /\
        (ratio <? 1.5) = true
  | Trade_viable => False
  end.
Proof.
  intros H. apply check_trade_viability_inv in H.
  destruct H as [(-> & _ & Hmin & ->)|(Hmin & c & r & Hc & Hr & Hdc & Hdr & H)];
    [auto|].
  destruct H as [(-> & _ & Hs & _)|(Hs & s & Hsl & Hds & H)].
  { split; [exact Hmin|]. split; [reflexivity|]. exists r.
    split; [exact Hr|]. split; [reflexivity|].
    unfold calculate_bnb_requirement in Hr.
    destruct (calculate_commissions amount balance price); [|discriminate].
    inversion Hr; subst. exact Hs. }
  cbv zeta in H.
  destruct H as [(-> & _ & Hp & _)|(Hp & Hdt & Ha & Hdrr & H)].
  { split; [exact Hmin|]. exists r, s. auto. }
  destruct H as [(-> & _ & Hrat)|(_ & Hok & _)]; [|discriminate].
  split; [exact Hmin|]. exists r, s. auto 10.
Qed.

Lemma rejection_names_failed_test_witness :
  (100000 <? 10) = false /\
  exists r s,
    calculate_bnb_requirement 100000 0 300 = Ret r /\
    is_sufficient r = true /\
    calculate_stop_loss 60000 50 100000 0 300 = Ret s /\
    (10 <? (60000 - stop_loss_price s) / 60000 * 100) = false /\
    0.25 = 50 / stop_loss_amount_usd s /\
    (0.25 <? 1.5) = true.
Proof.
  exact (rejection_names_failed_test 100000 50 60000 0 300 10
           (Poor_risk_reward_ratio 0.25) _ eq_refl).
Defined.

(** The loop of [calculate_position_size] stops at the first multiplier
    that qualifies. *)
Lemma find_size_spec (multipliers : list float)
    (available entry target max_risk balance price : float)
    (best : float) (best_details : option Details) :
  find_size multipliers available entry target max_risk balance price =
    Ret (best, best_details) ->
  (best = 0 /\ best_details = None /\
   Forall (fun m => forall d,
             ~ qualifies available entry target max_risk balance price
                         (max_risk * m) d) multipliers)
  \/
  (exists before m after d,
     multipliers = before ++ m :: after /\
     best = max_risk * m /\ best_details = Some d /\
     qualifies available entry target max_risk balance price best d /\
     Forall (fun m' => forall d',
               ~ qualifies available entry target max_risk balance price
                           (max_risk * m') d') before).
Proof.
  revert best best_details.
  induction multipliers as [|m ms IH]; intros best best_details H.
  - inversion H; subst. left. auto.
  - cbn [find_size] in H.
    assert (Hskip :
      (forall d, ~ qualifies available entry target max_risk balance price
                             (max_risk * m) d) ->
      find_size ms available entry target max_risk balance price =
        Ret (best, best_details) ->
      (best = 0 /\ best_details = None /\
       Forall (fun m => forall d,
                 ~ qualifies available entry target max_risk balance price
                             (max_risk * m) d) (m :: ms))
      \/
      (exists before m0 after d,
         m :: ms = before ++ m0 :: after /\
         best = max_risk * m0 /\ best_details = Some d /\
         qualifies available entry target max_risk balance price best d /\
         Forall (fun m' => forall d',
                   ~ qualifies available entry target max_risk balance price
                               (max_risk * m') d') before)).
    { intros Hno Hrest. destruct (IH _ _ Hrest) as
          [(-> & -> & Hall)|(before & m0 & after & d & -> & -> & -> & Hq & Hall)].
      - left. split; [reflexivity|]. split; [reflexivity|].
        constructor; assumption.
      - right. exists (m :: before), m0, after, d. simpl.
        split; [reflexivity|]. split; [reflexivity|]. split; [reflexivity|].
        split; [exact Hq|]. constructor; assumption. }
    destruct (available * 0.1 <? max_risk * m) eqn:Ecap.
    { apply Hskip; [intros d (Hc & _); congruence|exact H]. }
    destruct (check_trade_viability (max_risk * m) target entry balance price 10)
      as [[[ok v] d]|e] eqn:Echk; [|discriminate H].
    simpl in H. destruct ok.
    + destruct (viable_inv_stop_loss _ _ _ _ _ _ _ _ Echk) as (-> & s & Hs).
      rewrite Hs in H.
      destruct (stop_loss_amount_usd s <=? max_risk) eqn:Erisk.
      * inversion H; subst. right. exists [], m, ms, d. simpl.
        split; [reflexivity|]. split; [reflexivity|]. split; [reflexivity|].
        split; [|constructor].
        split; [exact Ecap|]. split; [exact Echk|]. exists s. auto.
      * apply Hskip; [|exact H]. intros d' (_ & Hc & s' & Hs' & Hle).
        rewrite Echk in Hc. inversion Hc; subst. congruence.
    + apply Hskip; [|exact H]. intros d' (_ & Hc & _).
      rewrite Echk in Hc. inversion Hc.
Qed.

(** A qualifying amount is not zero: it is not below the minimum of 10. *)
Lemma qualifies_nonzero
    (available entry target max_risk balance price amount : float)
    (d : Details) :
  qualifies available entry target max_risk balance price amount d ->
  (amount =? 0) = false.
Proof.
  intros (_ & Hc & _). apply check_trade_viability_inv in Hc.
  destruct Hc as [(_ & Hok & _)|(Hmin & _)]; [discriminate|].
  clear -Hmin. float_order.
Qed.

(** X3.  [calculate_position_size] tries the multipliers 0.5, 1, 1.5, 2,
    2.5, 3 of the risk budget in this order and returns the first amount
    that qualifies: within a tenth of the balance, viable with a minimum of
    10, and with a stop-loss amount within the risk budget.  A success
    carries that amount, its quantity and its stop-loss amount, and no
    earlier multiplier qualifies; a failure means that no multiplier
    qualifies. *)
Theorem position_size_first_qualifying
    (available entry target risk_percent balance price : float)
    (result : position_size) :
  calculate_position_size available entry target risk_percent balance price =
    Ret result ->
  let max_risk := available * (risk_percent / 100) in
  match result with
  | Position_size amount quantity risk percent d =>
      exists before m after s,
        risk_multipliers = before ++ m :: after /\
        amount = max_risk * m /\
        qualifies available entry target max_risk balance price amount d /\
        Forall (fun m' => forall d',
                  ~ qualifies available entry target max_risk balance price
                              (max_risk * m') d') before /\
        stop_loss d = Some s /\
        risk = stop_loss_amount_usd s /\
        quantity = amount / entry /\
        percent = risk / available * 100
  | No_suitable_size =>
      Forall (fun m => forall d,
                ~ qualifies available entry target max_risk balance price
                            (max_risk * m) d) risk_multipliers
  end.
Proof.
  unfold calculate_position_size. intros H. cbv zeta.
  set (max_risk := available * (risk_percent / 100)) in *.
  destruct (find_size risk_multipliers available entry target max_risk
                      balance price) as [[best od]|e] eqn:Ef; [|discriminate H].
  simpl in H.
  destruct (find_size_spec _ _ _ _ _ _ _ _ _ Ef) as
    [(-> & -> & Hall)|(before & m & after & d & Hsplit & -> & -> & Hq & Hall)].
  - change (0 =? 0) with true in H. inversion H; subst. exact Hall.
  - pose proof (qualifies_nonzero _ _ _ _ _ _ _ _ Hq) as Hnz.
    rewrite Hnz in H.
    destruct Hq as (Hcap & Hchk & s & Hs & Hle).
    destruct (entry =? 0) eqn:Ee;
      [rewrite (py_div_zero _ _ Ee) in H; discriminate H
      |rewrite (py_div_nonzero _ _ Ee) in H; simpl in H].
    rewrite Hs in H.
    destruct (available =? 0) eqn:Ea;
      [rewrite (py_div_zero _ _ Ea) in H; discriminate H
      |rewrite (py_div_nonzero _ _ Ea) in H; simpl in H].
    inversion H; subst.
    exists before, m, after, s. repeat (split; [first [assumption|reflexivity]|]).
    split; [|auto].
    split; [exact Hcap|]. split; [exact Hchk|]. exists s. auto.
Qed.

Lemma position_size_first_qualifying_witness :
  exists before m after s,
    risk_multipliers = before ++ m :: after /\
    300 = 10000 * (2 / 100) * m /\
    qualifies 10000 60000 50 (10000 * (2 / 100)) 0 300 300
      (match calculate_position_size 10000 60000 50 2 0 300 with
       | Ret (Position_size _ _ _ _ d) => d
       | _ => no_details
       end) /\
    Forall (fun m' => forall d',
              ~ qualifies 10000 60000 50 (10000 * (2 / 100)) 0 300
                          (10000 * (2 / 100) * m') d') before /\
    stop_loss (match calculate_position_size 10000 60000 50 2 0 300 with
               | Ret (Position_size _ _ _ _ d) => d
               | _ => no_details
               end) = Some s /\
    25 = stop_loss_amount_usd s /\
    0.005 = 300 / 60000 /\
    0.25 = 25 / 10000 * 100.
Proof.
  exact (position_size_first_qualifying 10000 60000 50 2 0 300 _ eq_refl).
Defined.

(** ** When the calculator raises *)

Lemma calculate_commissions_raise (amount balance price : float) (x : exn) :
  calculate_commissions amount balance price = Raise x ->
  x = ZeroDivisionError /\ (0.001 <? balance) = true /\ (price =? 0) = true.
Proof.
  destruct (0.001 <? balance) eqn:Hb; destruct (price =? 0) eqn:Hp.
  - rewrite calculate_commissions_zero_price by assumption.
    intros [= <-]. auto.
  - rewrite calculate_commissions_discount by assumption. discriminate.
  - rewrite calculate_commissions_standard by assumption. discriminate.
  - rewrite calculate_commissions_standard by assumption. discriminate.
Qed.

Lemma calculate_stop_loss_raise (entry target amount balance price : float)
    (c : CommissionCalculation) (x : exn) :
  calculate_commissions amount balance price = Ret c ->
  calculate_stop_loss entry target amount balance price = Raise x ->
  x = ZeroDivisionError /\
  ((entry =? 0) = true \/ (amount / entry =? 0) = true).
Proof.
  intros Hc. unfold calculate_stop_loss. rewrite Hc. simpl.
  destruct (entry =? 0) eqn:Ee.
  - rewrite (py_div_zero _ _ Ee). simpl. intros [= <-]. auto.
  - rewrite (py_div_nonzero _ _ Ee). simpl.
    destruct (amount / entry =? 0) eqn:Eq.
    + rewrite (py_div_zero _ _ Eq). simpl. intros [= <-]. auto.
    + rewrite (py_div_nonzero _ _ Eq). discriminate.
Qed.

Lemma calculate_stop_loss_zero_entry (entry target amount balance price : float)
    (s : StopLossCalculation) :
  (entry =? 0) = true ->
  calculate_stop_loss entry target amount balance price <> Ret s.
Proof.
  intros Ee. unfold calculate_stop_loss.
  destruct (calculate_commissions amount balance price); [|discriminate].
  simpl. rewrite (py_div_zero _ _ Ee). discriminate.
Qed.

(** X20.  [check_trade_viability] raises nothing but [ZeroDivisionError],
    and only after the amount passed the minimum: when the discount applies
    and the BNB price is zero, when the entry price is zero, when the
    quantity amount / entry price is zero, or when the stop-loss amount is
    zero.  With an entry price of zero it never gives a verdict beyond the
    BNB test: it returns a rejection for the amount or for BNB, or it
    raises. *)
Theorem viability_error_cases
    (amount target entry balance price minimum : float) :
  (forall x,
     check_trade_viability amount target entry balance price minimum = Raise x ->
     x = ZeroDivisionError /\
     (amount <? minimum) = false /\
     (((0.001 <? balance) = true /\ (price =? 0) = true) \/
      (entry =? 0) = true \/
      (amount / entry =? 0) = true \/
      exists s,
        calculate_stop_loss entry target amount balance price = Ret s /\
        (stop_loss_amount_usd s =? 0) = true))
  /\
  ((entry =? 0) = true ->
   forall ok v d,
     check_trade_viability amount target entry balance price minimum =
       Ret (ok, v, d) ->
     ok = false /\
     (v = Trade_amount_too_small amount minimum \/
      exists need, v = Insufficient_BNB need balance)).
Proof.
  split.
  - unfold check_trade_viability. intros x H.
    unfold mret, outcome_ret in H.
    destruct (amount <? minimum) eqn:Emin; [discriminate|].
    destruct (calculate_commissions amount balance price) as [c|e] eqn:Ec.
    2:{ simpl in H. injection H as <-.
        apply calculate_commissions_raise in Ec as (-> & Hb & Hp). auto. }
    simpl in H.
    unfold calculate_bnb_requirement in H. rewrite Ec in H. simpl in H.
    match type of H with
    | context [negb ?b] => destruct b
    end; simpl in H; [|discriminate].
    destruct (calculate_stop_loss entry target amount balance price)
      as [s|e] eqn:Esl.
    2:{ simpl in H. injection H as <-.
        destruct (calculate_stop_loss_raise _ _ _ _ _ _ _ Ec Esl) as (-> & Hor).
        split; [reflexivity|]. split; [reflexivity|]. right.
        destruct Hor; auto. }
    simpl in H.
    destruct (entry =? 0) eqn:Ee;
      [rewrite (py_div_zero _ _ Ee) in H
      |rewrite (py_div_nonzero _ _ Ee) in H]; simpl in H.
    { injection H as <-. auto. }
    destruct (10 <? (entry - stop_loss_price s) / entry * 100);
      [discriminate|].
    destruct (stop_loss_amount_usd s =? 0) eqn:Ea;
      [rewrite (py_div_zero _ _ Ea) in H
      |rewrite (py_div_nonzero _ _ Ea) in H]; simpl in H.
    { injection H as <-. split; [reflexivity|]. split; [reflexivity|].
      right. right. right. exists s. auto. }
    destruct (target / stop_loss_amount_usd s <? 1.5); discriminate.
  - intros Ee ok v d H. apply check_trade_viability_inv in H.
    destruct H as [(-> & -> & _)|(_ & c & r & _ & _ & _ & _ & H)]; [auto|].
    destruct H as [(-> & -> & _)|(_ & s & Hsl & _)]; [eauto|].
    exfalso. eapply calculate_stop_loss_zero_entry; eassumption.
Qed.

End MoreRiskCalculator.

(* ===================================================================== *)
(** * More on the shared state store                                     *)
(* ===================================================================== *)

Section MoreSharedState.
Import SharedState Props.

(** ** Dictionaries *)

Lemma dict_get_None {V} (d : dict V) (k : string) :
  dict_get d k = None <-> ~ In k (map fst d).
Proof.
  induction d as [|[k' v] d IH]; simpl; [tauto|].
  destruct (String.eqb_spec k k').
  - subst. split; [discriminate|]. intros H. exfalso. apply H. now left.
  - rewrite IH. split; [intros H [Hk|Hk]; [congruence|tauto]|tauto].
Qed.

Lemma dict_get_In {V} (d : dict V) (k : string) (v : V) :
  dict_get d k = Some v -> In (k, v) d.
Proof.
  induction d as [|[k' v'] d IH]; simpl; [discriminate|].
  destruct (String.eqb_spec k k').
  - intros [= <-]. subst. now left.
  - intros H. right. apply IH, H.
Qed.

Lemma dict_get_NoDup {V} (d : dict V) (k : string) (v : V) :
  NoDup (map fst d) -> In (k, v) d -> dict_get d k = Some v.
Proof.
  induction d as [|[k' v'] d IH]; simpl; [intros _ []|].
  intros Hnd. apply NoDup_cons in Hnd as [Hni Hnd].
  rewrite list_elem_of_In in Hni.
  intros [[= -> ->]|Hin].
  - now rewrite String.eqb_refl.
  - destruct (String.eqb_spec k k').
    + subst. exfalso. apply Hni. apply (in_map fst) in Hin. exact Hin.
    + apply IH; assumption.
Qed.

Lemma dict_set_fresh {V} (d : dict V) (k : string) (v : V) :
  dict_get d k = None -> dict_set d k v = d ++ [(k, v)].
Proof.
  induction d as [|[k' v'] d IH]; simpl; [reflexivity|].
  destruct (String.eqb k k'); [discriminate|].
  intros H. now rewrite IH.
Qed.

Lemma dict_get_app {V} (d1 d2 : dict V) (k : string) :
  dict_get (d1 ++ d2) k =
  match dict_get d1 k with
  | Some v => Some v
  | None => dict_get d2 k
  end.
Proof.
  induction d1 as [|[k' v'] d1 IH]; simpl; [reflexivity|].
  destruct (String.eqb k k'); [reflexivity|exact IH].
Qed.

(** ** Records *)

(** The constructor accepts what [asdict] produced and rebuilds the
    record. *)
Lemma asdict_decodes (t : TradeState) : TradeState_of_kwargs (asdict t) = Ret t.
Proof. destruct t as [? ? ? ? ? ? ? ? ? ? ? ? ? ? ? ? ? ? [pid|]]; reflexivity. Qed.

(** X4.  Writing a record with [asdict] and reading it back with the
    constructor gives the record again, so two records with the same
    dictionary are the same record. *)
Theorem asdict_round_trip (t : TradeState) :
  TradeState_of_kwargs (asdict t) = Ret t /\
  forall t', asdict t' = asdict t -> t' = t.
Proof.
  split; [apply asdict_decodes|].
  intros t' H. pose proof (asdict_decodes t') as H'. rewrite H in H'.
  rewrite asdict_decodes in H'. congruence.
Qed.

(** ** Saving and restarting *)

Lemma snapshot_keys (w : world) (trades : dict loc) :
  map fst (snapshot w trades) = map fst trades.
Proof. unfold snapshot. rewrite map_map. reflexivity. Qed.

(** What the dict comprehension of [save_state] builds. *)
Lemma trades_to_json_snapshot (trades : dict loc) :
  forall (acc : dict json) (w : world),
    Forall (fun kv => is_Some (heap w !! snd kv)) trades ->
    NoDup (map fst trades) ->
    (forall k, In k (map fst trades) -> dict_get acc k = None) ->
    trades_to_json trades acc w = (Ret (acc ++ snapshot w trades), w).
Proof.
  induction trades as [|[id l] trades IH]; intros acc w Hl Hnd Hacc; simpl.
  - now rewrite app_nil_r.
  - inversion Hl as [|? ? [t Ht] Hrest]; subst. simpl in Ht.
    apply NoDup_cons in Hnd as [Hni Hnd]. rewrite list_elem_of_In in Hni.
    rewrite bind_run, (deref_run _ _ _ Ht). rewrite Ht.
    rewrite dict_set_fresh by (apply Hacc; now left).
    rewrite IH; [now rewrite <- app_assoc|exact Hrest|exact Hnd|].
    intros k Hk. rewrite dict_get_app. rewrite Hacc by now right.
    simpl. destruct (String.eqb_spec k id); [subst; tauto|reflexivity].
Qed.

(** The file that [save_state] writes in a world in good order. *)
Lemma save_state_file (force : bool) (w : world) :
  live w ->
  NoDup (map fst (active_trades (_system_state w))) ->
  state_file (snd (save_state force w)) =
    Some (Parsed
            (state_dict
               (snapshot w (active_trades (_system_state w)))
               (set_sys_last_update (JFloat (time_time w (ticks w)))
                                    (_system_state w))
               (datetime_now w (S (ticks w))))).
Proof.
  intros Hl Hnd. rewrite save_state_run. cbv zeta.
  rewrite trades_to_json_snapshot; [reflexivity|exact Hl|exact Hnd|reflexivity].
Qed.

(** A primary file in good order, with everything that is restored. *)
Lemma load_state_ok_full (v : world) (doc : json)
    (records : list (string * json)) :
  state_file v = Some (Parsed doc) ->
  get_default doc "active_trades" (JObj []) = Ret (JObj records) ->
  NoDup (map fst records) ->
  Forall (fun kv => exists t, TradeState_of_kwargs (snd kv) = Ret t) records ->
  exists v',
    load_state v = (Ret tt, v') /\
    restored_from records (active_trades (_system_state v')) v' /\
    get_default doc "market_data" (JObj []) =
      Ret (market_data (_system_state v')) /\
    get_default doc "balance_data" (JObj []) =
      Ret (balance_data (_system_state v')) /\
    get_default doc "last_update" (JFloat (time_time v (ticks v))) =
      Ret (sys_last_update (_system_state v')) /\
    bot_running (_system_state v') = false /\
    websocket_connected (_system_state v') = false /\
    errors v' = errors v.
Proof.
  intros Hsf Hg Hnd Hall. unfold load_state, try_except.
  rewrite bind_run. unfold gets at 1. cbv beta iota. rewrite Hsf.
  rewrite (load_primary_run doc records v Hg).
  rewrite (restore_all_ok records [] v Hall).
  destruct (restore_each_spec records [] v)
    as (acc' & w1 & Hrun & Hext & Hout & Hin & Herr).
  rewrite Hrun. eexists. split; [reflexivity|]. simpl.
  destruct Hext as (_ & _ & _ & Htime & _ & Hticks & _).
  rewrite Htime, Hticks.
  destruct doc; try discriminate Hg. simpl.
  split; [|repeat split; auto].
  split.
  - intros id data Hi. specialize (Hin Hnd id data Hi).
    destruct (TradeState_of_kwargs data); exact Hin.
  - intros id Hni. now rewrite Hout.
Qed.

Lemma state_file_world_with_files (primary backup : option content) :
  state_file (Sample.world_with_files primary backup) = primary.
Proof. reflexivity. Qed.

(** What a restart restores from a file that [save_state] wrote for the
    trades of [w] and the state [s]. *)
Lemma load_saved_file (w v : world) (s : SystemState) (saved_at : string) :
  live w ->
  NoDup (map fst (active_trades (_system_state w))) ->
  state_file v =
    Some (Parsed (state_dict (snapshot w (active_trades (_system_state w)))
                             s saved_at)) ->
  exists v',
    load_state v = (Ret tt, v') /\
    (forall id l t,
       dict_get (active_trades (_system_state w)) id = Some l ->
       heap w !! l = Some t ->
       exists l', dict_get (active_trades (_system_state v')) id = Some l' /\
                  heap v' !! l' = Some t) /\
    (forall id,
       dict_get (active_trades (_system_state w)) id = None ->
       dict_get (active_trades (_system_state v')) id = None) /\
    market_data (_system_state v') = market_data s /\
    balance_data (_system_state v') = balance_data s /\
    sys_last_update (_system_state v') = sys_last_update s /\
    bot_running (_system_state v') = false /\
    websocket_connected (_system_state v') = false /\
    errors v' = errors v.
Proof.
  intros Hl Hnd Hfile.
  set (records := snapshot w (active_trades (_system_state w))) in *.
  assert (Hkeys : map fst records = map fst (active_trades (_system_state w)))
    by apply snapshot_keys.
  assert (Hdec : Forall (fun kv => exists t, TradeState_of_kwargs (snd kv) = Ret t)
                        records).
  { unfold records, snapshot. rewrite Forall_map.
    eapply Forall_impl; [exact Hl|]. intros [id l] [t Ht]. simpl in *.
    rewrite Ht. exists t. apply asdict_decodes. }
  destruct (load_state_ok_full v _ records Hfile eq_refl) as
    (v' & Hrun & [Hin Hout] & Hmd & Hbd & Hlu & Hb & Hws & Herr);
    [now rewrite Hkeys|exact Hdec|].
  exists v'. split; [exact Hrun|].
  split; [|split; [|repeat split; try assumption; simpl in *; congruence]].
  - intros id l t Hget Hobj.
    assert (Hrec : In (id, asdict t) records).
    { unfold records, snapshot. apply in_map_iff.
      exists (id, l). simpl. rewrite Hobj. split; [reflexivity|].
      apply dict_get_In, Hget. }
    specialize (Hin id (asdict t) Hrec). rewrite asdict_decodes in Hin.
    exact Hin.
  - intros id Hnone. apply Hout. rewrite Hkeys. now apply dict_get_None.
Qed.

(** X5.  Saving and restarting: in a store whose references all have an
    object, after [save_state] a process that starts from the written file
    restores every trade under its id with all its fields, no other id, the
    market and balance data and the [last_update] of the save; both flags
    are false and no error is logged. *)
Theorem save_then_load_restores (force : bool) (w v : world) :
  live w ->
  NoDup (map fst (active_trades (_system_state w))) ->
  state_file v = state_file (snd (save_state force w)) ->
  exists v',
    load_state v = (Ret tt, v') /\
    (forall id l t,
       dict_get (active_trades (_system_state w)) id = Some l ->
       heap w !! l = Some t ->
       exists l', dict_get (active_trades (_system_state v')) id = Some l' /\
                  heap v' !! l' = Some t) /\
    (forall id,
       dict_get (active_trades (_system_state w)) id = None ->
       dict_get (active_trades (_system_state v')) id = None) /\
    market_data (_system_state v') = market_data (_system_state w) /\
    balance_data (_system_state v') = balance_data (_system_state w) /\
    sys_last_update (_system_state v') = JFloat (time_time w (ticks w)) /\
    bot_running (_system_state v') = false /\
    websocket_connected (_system_state v') = false /\
    errors v' = errors v.
Proof.
  intros Hl Hnd Hfile. rewrite (save_state_file force w Hl Hnd) in Hfile.
  destruct (load_saved_file w v _ _ Hl Hnd Hfile)
    as (v' & Hrun & Hin & Hout & Hmd & Hbd & Hlu & Hb & Hws & Herr).
  exists v'. split; [exact Hrun|]. split; [exact Hin|]. split; [exact Hout|].
  split; [exact Hmd|]. split; [exact Hbd|]. split; [exact Hlu|].
  split; [exact Hb|]. split; [exact Hws|exact Herr].
Qed.

Lemma save_then_load_restores_witness :
  exists v',
    load_state
      (Sample.world_with_files
         (state_file
            (snd (save_state true
                    (Sample.world_with (Sample.trade "t1" "waiting" 0)))))
         None) = (Ret tt, v') /\
    (forall id l t,
       dict_get (active_trades
                   (_system_state
                      (Sample.world_with (Sample.trade "t1" "waiting" 0)))) id =
         Some l ->
       heap (Sample.world_with (Sample.trade "t1" "waiting" 0)) !! l = Some t ->
       exists l', dict_get (active_trades (_system_state v')) id = Some l' /\
                  heap v' !! l' = Some t) /\
    bot_running (_system_state v') = false /\
    websocket_connected (_system_state v') = false.
Proof.
  pose proof (save_then_load_restores true
              (Sample.world_with (Sample.trade "t1" "waiting" 0))
              (Sample.world_with_files
                 (state_file
                    (snd (save_state true
                            (Sample.world_with (Sample.trade "t1" "waiting" 0)))))
                 None)) as H.
  assert (H1 : live (Sample.world_with (Sample.trade "t1" "waiting" 0))).
  { constructor; [|constructor].
    exists (Sample.trade "t1" "waiting" 0). reflexivity. }
  assert (H2 : NoDup (map fst (active_trades
                 (_system_state
                    (Sample.world_with (Sample.trade "t1" "waiting" 0)))))).
  { constructor; [|constructor]. rewrite list_elem_of_In. simpl. tauto. }
  specialize (H H1 H2 (state_file_world_with_files _ _)).
  destruct H as (v' & Ha & Hb & _ & _ & _ & _ & Hc & Hd & _).
  exists v'. split; [exact Ha|split; [exact Hb|split; [exact Hc|exact Hd]]].
Defined.

(** ** Removing and updating trades *)

(** [remove_trade] as an equation. *)
Lemma remove_trade_run (w : world) (id : string) :
  remove_trade id w =
  if dict_mem (active_trades (_system_state w)) id
  then save_state true
         (with_state
            (set_active_trades (dict_del (active_trades (_system_state w)) id)
                               (_system_state w)) w)
  else (Ret tt, w).
Proof.
  unfold remove_trade. rewrite bind_run. unfold get_state, gets.
  cbv beta iota. destruct (dict_mem _ id); reflexivity.
Qed.

(** X6.  [remove_trade] never fails; afterwards [get_trade] finds nothing
    under the id, every other id has the reference it had and no object is
    changed; for an id that is not in the store nothing changes at all,
    not even the files. *)
Theorem remove_trade_then_absent (w : world) (id : string) :
  exists w',
    remove_trade id w = (Ret tt, w') /\
    get_trade id w' = (Ret None, w') /\
    (forall id', id' <> id ->
       dict_get (active_trades (_system_state w')) id' =
       dict_get (active_trades (_system_state w)) id') /\
    heap w' = heap w /\
    (dict_get (active_trades (_system_state w)) id = None -> w' = w).
Proof.
  rewrite remove_trade_run. unfold dict_mem.
  destruct (dict_get (active_trades (_system_state w)) id) as [l|] eqn:Eg.
  - match goal with
    | |- context [save_state true ?w1] =>
        destruct (save_state_frame true w1) as (w' & Hrun & Hh & _ & Hst)
    end.
    exists w'. split; [exact Hrun|]. rewrite get_trade_run, Hst. simpl.
    rewrite dict_get_del_eq. split; [reflexivity|].
    split; [intros id' Hne; apply dict_get_del_ne; congruence|].
    split; [exact Hh|discriminate].
  - exists w. split; [reflexivity|]. rewrite get_trade_run, Eg. auto.
Qed.



(** ** Files *)

(** X8.  [save_state] never raises; afterwards the backup file holds what
    the state file held before the call (and is left alone when there was
    no state file), and neither the trades of the store nor any object has
    changed. *)
Theorem save_state_keeps_previous_file (force : bool) (w : world) :
  exists w',
    save_state force w = (Ret tt, w') /\
    backup_file w' = match state_file w with
                     | Some c => Some c
                     | None => backup_file w
                     end /\
    heap w' = heap w /\
    active_trades (_system_state w') = active_trades (_system_state w) /\
    bot_running (_system_state w') = bot_running (_system_state w) /\
    websocket_connected (_system_state w') =
      websocket_connected (_system_state w).
Proof.
  rewrite save_state_run. cbv zeta.
  destruct (fst (trades_to_json _ [] w)); eexists; split; reflexivity || (repeat split).
Qed.

(** X9.  What [load_state] does when nothing can be read.  Without a state
    file nothing changes, even when a backup exists: the backup is read
    only after the state file failed.  With an unreadable state file and no
    backup, or an unreadable backup, the state is left as it was and the
    errors are logged; [load_state] itself does not raise. *)
Theorem load_state_nothing_readable (w : world) :
  (state_file w = None -> load_state w = (Ret tt, w))
  /\
  (state_file w = Some Unparsable -> backup_file w = None ->
   load_state w =
     (Ret tt,
      with_errors (errors w ++ [Error_loading_state JSONDecodeError]) w))
  /\
  (state_file w = Some Unparsable -> backup_file w = Some Unparsable ->
   load_state w =
     (Ret tt,
      with_errors ((errors w ++ [Error_loading_state JSONDecodeError])
                   ++ [Error_loading_backup JSONDecodeError]) w)).
Proof.
  unfold load_state, _try_load_backup, try_except, logger_error, modify, gets,
    load_primary, load_backup, lift, mbind, M_bind.
  split; [|split].
  - intros Hs. now rewrite Hs.
  - intros Hs Hb. rewrite Hs. cbn [json_load backup_file with_errors].
    now rewrite Hb.
  - intros Hs Hb. rewrite Hs. cbn [json_load backup_file with_errors].
    now rewrite Hb.
Qed.

Lemma load_state_nothing_readable_witness :
  load_state (Sample.world_with_files None (Some Sample.two_positions)) =
    (Ret tt, Sample.world_with_files None (Some Sample.two_positions)).
Proof.
  exact (proj1 (load_state_nothing_readable
                  (Sample.world_with_files None (Some Sample.two_positions)))
               eq_refl).
Defined.

(** X10.  A store under construction: whatever the two files hold,
    [SharedState.__init__] does not raise and ends with both flags false. *)
Theorem init_flags_false (w : world) :
  exists w',
    init w = (Ret tt, w') /\
    bot_running (_system_state w') = false /\
    websocket_connected (_system_state w') = false.
Proof.
  unfold init. rewrite bind_run. unfold time_time_call. cbv beta iota.
  rewrite bind_run. unfold set_state, modify. cbv beta iota.
  match goal with
  | |- context [load_state ?w1] =>
      destruct (load_state_flags w1) as (w' & Hrun & Hb & Hws)
  end.
  exists w'. split; [exact Hrun|]. split; [apply Hb|apply Hws]; reflexivity.
Qed.

(** ** More on dictionaries *)

Lemma dict_set_keys {V} (d : dict V) (k : string) (v : V) :
  map fst (dict_set d k v) =
  if dict_mem d k then map fst d else map fst d ++ [k].
Proof.
  unfold dict_mem. induction d as [|[k' v'] d IH]; simpl; [reflexivity|].
  destruct (String.eqb_spec k k'); simpl; [reflexivity|].
  rewrite IH. now destruct (dict_get d k).
Qed.

Lemma dict_set_NoDup {V} (d : dict V) (k : string) (v : V) :
  NoDup (map fst d) -> NoDup (map fst (dict_set d k v)).
Proof.
  intros Hnd. rewrite dict_set_keys. unfold dict_mem.
  destruct (dict_get d k) eqn:E; [exact Hnd|].
  apply NoDup_app. split; [exact Hnd|]. split.
  - intros x Hx Hk. rewrite !list_elem_of_In in *. simpl in Hk.
    destruct Hk as [<-|[]]. apply dict_get_None in E. tauto.
  - constructor; [|constructor]. rewrite list_elem_of_In. simpl. tauto.
Qed.

Lemma dict_set_Forall {V} (P : string * V -> Prop) (d : dict V) (k : string)
    (v : V) :
  Forall P d -> P (k, v) -> Forall P (dict_set d k v).
Proof.
  intros Hd Hk. induction Hd as [|[k' v'] d Hx Hd IH]; simpl.
  - constructor; [exact Hk|constructor].
  - destruct (String.eqb_spec k k'); [subst|]; constructor; assumption.
Qed.

Lemma dict_del_In {V} (d : dict V) (k : string) (kv : string * V) :
  In kv (dict_del d k) -> In kv d.
Proof.
  induction d as [|[k' v'] d IH]; simpl; [tauto|].
  destruct (String.eqb k k'); simpl; tauto.
Qed.

Lemma dict_del_keys_In {V} (d : dict V) (k x : string) :
  In x (map fst (dict_del d k)) -> In x (map fst d).
Proof.
  induction d as [|[k' v'] d IH]; simpl; [tauto|].
  destruct (String.eqb k k'); simpl; tauto.
Qed.

Lemma dict_del_NoDup {V} (d : dict V) (k : string) :
  NoDup (map fst d) -> NoDup (map fst (dict_del d k)).
Proof.
  induction d as [|[k' v'] d IH]; simpl; [auto|].
  intros Hnd. apply NoDup_cons in Hnd as [Hni Hnd].
  rewrite list_elem_of_In in Hni.
  destruct (String.eqb k k'); [auto|]. simpl.
  constructor; [|auto]. rewrite list_elem_of_In.
  intros Hx. apply Hni. eapply dict_del_keys_In, Hx.
Qed.

Lemma dict_del_Forall {V} (P : string * V -> Prop) (d : dict V) (k : string) :
  Forall P d -> Forall P (dict_del d k).
Proof.
  intros Hd. induction Hd as [|[k' v'] d Hx Hd IH]; simpl; [constructor|].
  destruct (String.eqb k k'); [exact IH|constructor; assumption].
Qed.

Lemma dict_get_update {V} (other : dict V) :
  forall (d : dict V) (k : string),
    NoDup (map fst other) ->
    dict_get (dict_update d other) k =
    match dict_get other k with
    | Some v => Some v
    | None => dict_get d k
    end.
Proof.
  unfold dict_update.
  induction other as [|[k' v'] other IH]; intros d k Hnd; simpl; [reflexivity|].
  apply NoDup_cons in Hnd as [Hni Hnd]. rewrite list_elem_of_In in Hni.
  rewrite IH by exact Hnd. cbn [fst snd] in *.
  destruct (String.eqb_spec k k').
  - subst. apply dict_get_None in Hni. rewrite Hni. apply dict_get_set_eq.
  - destruct (dict_get other k); [reflexivity|].
    apply dict_get_set_ne. congruence.
Qed.

Lemma dict_get_map {V W} (f : V -> W) (d : dict V) (k : string) :
  dict_get (map (fun kv => (fst kv, f (snd kv))) d) k =
  option_map f (dict_get d k).
Proof.
  induction d as [|[k' v'] d IH]; simpl; [reflexivity|].
  destruct (String.eqb k k'); [reflexivity|exact IH].
Qed.

(** ** Status flags, market data and balances *)

(** X11.  [set_bot_status] writes the flag to the state file at once, and
    still a process that starts from this file has [bot_running] false:
    the flag of the file is not read back. *)
Theorem bot_status_saved_not_restored (running : bool) (w v : world) :
  live w ->
  NoDup (map fst (active_trades (_system_state w))) ->
  state_file v = state_file (snd (set_bot_status running w)) ->
  exists w' d v',
    set_bot_status running w = (Ret tt, w') /\
    bot_running (_system_state w') = running /\
    state_file w' = Some (Parsed (JObj d)) /\
    dict_get d "bot_running" = Some (JBool running) /\
    load_state v = (Ret tt, v') /\
    bot_running (_system_state v') = false.
Proof.
  intros Hl Hnd Hv. unfold set_bot_status in *.
  rewrite bind_run, assign_state_run in *. cbv beta iota in *.
  set (w1 := with_state (set_bot_running running (_system_state w)) w) in *.
  assert (Hl1 : live w1) by exact Hl.
  assert (Hnd1 : NoDup (map fst (active_trades (_system_state w1)))) by exact Hnd.
  rewrite (save_state_file true w1 Hl1 Hnd1) in Hv.
  destruct (load_saved_file w1 v _ _ Hl1 Hnd1 Hv)
    as (v' & Hload & _ & _ & _ & _ & _ & Hb & _).
  destruct (save_state_frame true w1) as (w' & Hrun & _ & _ & Hst).
  pose proof (save_state_file true w1 Hl1 Hnd1) as Hf.
  rewrite Hrun in Hf. simpl snd in Hf.
  exists w'. eexists. exists v'. split; [exact Hrun|].
  split; [rewrite Hst; reflexivity|].
  split; [exact Hf|]. split; [reflexivity|]. split; [exact Hload|exact Hb].
Qed.

Lemma bot_status_saved_not_restored_witness :
  exists w' d v',
    set_bot_status true (Sample.world_with (Sample.trade "t1" "waiting" 0)) =
      (Ret tt, w') /\
    state_file w' = Some (Parsed (JObj d)) /\
    dict_get d "bot_running" = Some (JBool true) /\
    load_state
      (Sample.world_with_files
         (state_file
            (snd (set_bot_status true
                    (Sample.world_with (Sample.trade "t1" "waiting" 0)))))
         None) = (Ret tt, v') /\
    bot_running (_system_state v') = false.
Proof.
  pose proof (bot_status_saved_not_restored true
              (Sample.world_with (Sample.trade "t1" "waiting" 0))
              (Sample.world_with_files
                 (state_file
                    (snd (set_bot_status true
                            (Sample.world_with (Sample.trade "t1" "waiting" 0)))))
                 None)) as H.
  assert (H1 : live (Sample.world_with (Sample.trade "t1" "waiting" 0))).
  { constructor; [|constructor].
    exists (Sample.trade "t1" "waiting" 0). reflexivity. }
  assert (H2 : NoDup (map fst (active_trades
                 (_system_state
                    (Sample.world_with (Sample.trade "t1" "waiting" 0)))))).
  { constructor; [|constructor]. rewrite list_elem_of_In. simpl. tauto. }
  specialize (H H1 H2 (state_file_world_with_files _ _)).
  destruct H as (w' & d & v' & Ha & _ & Hb & Hc & Hd & He).
  exists w', d, v'. repeat (split; [assumption|]). assumption.
Defined.



(** X13.  [update_balance_data] merges: an asset of the argument has the
    new balance, every other asset keeps the balance it had; the trades and
    the files are as before.  With balance data that is no dictionary the
    call raises [AttributeError] and changes nothing. *)
Theorem update_balance_data_merges (w : world) (balances : dict float) :
  NoDup (map fst balances) ->
  (forall d,
     balance_data (_system_state w) = JObj d ->
     exists w' d',
       update_balance_data balances w = (Ret tt, w') /\
       balance_data (_system_state w') = JObj d' /\
       (forall asset,
          dict_get d' asset =
          match dict_get balances asset with
          | Some x => Some (JFloat x)
          | None => dict_get d asset
          end) /\
       active_trades (_system_state w') = active_trades (_system_state w) /\
       market_data (_system_state w') = market_data (_system_state w) /\
       heap w' = heap w /\
       state_file w' = state_file w /\
       backup_file w' = backup_file w)
  /\
  ((forall d, balance_data (_system_state w) <> JObj d) ->
   update_balance_data balances w = (Raise AttributeError, w)).
Proof.
  intros Hnd. unfold update_balance_data.
  rewrite bind_run. unfold get_state, gets. cbv beta iota. split.
  - intros d Hd. rewrite Hd. do 2 eexists. split; [reflexivity|].
    split; [reflexivity|]. split; [|repeat split].
    intros asset. rewrite dict_get_update.
    + rewrite dict_get_map. now destruct (dict_get balances asset).
    + rewrite map_map. simpl. exact Hnd.
  - intros Hno.
    destruct (balance_data (_system_state w)) eqn:E; try reflexivity.
    exfalso. eapply Hno. reflexivity.
Qed.

Lemma update_balance_data_merges_witness :
  exists w' d',
    update_balance_data [("USDT", 250)] Sample.empty_world = (Ret tt, w') /\
    balance_data (_system_state w') = JObj d' /\
    dict_get d' "USDT" = Some (JFloat 250) /\
    dict_get d' "BNB" = None.
Proof.
  assert (Hnd : NoDup (map fst [("USDT", 250)])).
  { constructor; [|constructor]. rewrite list_elem_of_In. simpl. tauto. }
  destruct (proj1 (update_balance_data_merges Sample.empty_world
                     [("USDT", 250)] Hnd) [] eq_refl)
    as (w' & d' & Ha & Hb & Hc & _).
  exists w', d'. split; [exact Ha|]. split; [exact Hb|].
  split; [apply (Hc "USDT")|apply (Hc "BNB")].
Defined.

(** ** Adding, removing and restarting *)

(** X14.  What [add_trade] and [remove_trade] do is on disk when they
    return: in a store whose references all have an object, a process that
    starts from the state file written by [add_trade] holds the added trade
    under its id with all its fields, and one that starts from the file
    written by [remove_trade] of a stored id does not hold that id. *)
Theorem add_and_remove_are_durable (w : world) :
  live w ->
  NoDup (map fst (active_trades (_system_state w))) ->
  (forall l t v,
     heap w !! l = Some t ->
     state_file v = state_file (snd (add_trade l w)) ->
     exists v' l',
       load_state v = (Ret tt, v') /\
       dict_get (active_trades (_system_state v')) (trade_id t) = Some l' /\
       heap v' !! l' = Some t /\
       errors v' = errors v)
  /\
  (forall id v,
     dict_get (active_trades (_system_state w)) id <> None ->
     state_file v = state_file (snd (remove_trade id w)) ->
     exists v',
       load_state v = (Ret tt, v') /\
       dict_get (active_trades (_system_state v')) id = None /\
       (forall id' l t,
          id' <> id ->
          dict_get (active_trades (_system_state w)) id' = Some l ->
          heap w !! l = Some t ->
          exists l', dict_get (active_trades (_system_state v')) id' = Some l' /\
                     heap v' !! l' = Some t) /\
       errors v' = errors v).
Proof.
  intros Hl Hnd. split.
  - intros l t v Ht Hv. unfold add_trade in Hv.
    rewrite bind_run, (getattr_run _ _ _ _ Ht) in Hv. cbv beta iota in Hv.
    rewrite bind_run, assign_state_run in Hv. cbv beta iota in Hv.
    match type of Hv with
    | context [save_state true ?x] => set (w1 := x) in *
    end.
    assert (Hl1 : live w1).
    { apply dict_set_Forall; [exact Hl|]. simpl. now rewrite Ht. }
    assert (Hnd1 : NoDup (map fst (active_trades (_system_state w1)))).
    { apply dict_set_NoDup, Hnd. }
    rewrite (save_state_file true w1 Hl1 Hnd1) in Hv.
    destruct (load_saved_file w1 v _ _ Hl1 Hnd1 Hv)
      as (v' & Hload & Hin & _ & _ & _ & _ & _ & _ & Herr).
    destruct (Hin (trade_id t) l t) as (l' & Hd & Hh);
      [apply dict_get_set_eq|exact Ht|].
    exists v', l'. auto.
  - intros id v Hid Hv. unfold remove_trade in Hv.
    rewrite bind_run in Hv. unfold get_state, gets in Hv. cbv beta iota in Hv.
    unfold dict_mem in Hv.
    destruct (dict_get (active_trades (_system_state w)) id) eqn:E;
      [clear Hid|congruence].
    rewrite bind_run, assign_state_run in Hv. cbv beta iota in Hv.
    match type of Hv with
    | context [save_state true ?x] => set (w1 := x) in *
    end.
    assert (Hl1 : live w1) by (apply dict_del_Forall, Hl).
    assert (Hnd1 : NoDup (map fst (active_trades (_system_state w1)))).
    { apply dict_del_NoDup, Hnd. }
    rewrite (save_state_file true w1 Hl1 Hnd1) in Hv.
    destruct (load_saved_file w1 v _ _ Hl1 Hnd1 Hv)
      as (v' & Hload & Hin & Hout & _ & _ & _ & _ & _ & Herr).
    exists v'. split; [exact Hload|].
    split; [apply Hout, dict_get_del_eq|]. split; [|exact Herr].
    intros id' l' t' Hne Hd Hh. apply (Hin id' l' t'); [|exact Hh].
    simpl. rewrite dict_get_del_ne by congruence. exact Hd.
Qed.

Lemma add_and_remove_are_durable_witness :
  exists v' l',
    load_state
      (Sample.world_with_files
         (state_file
            (snd (add_trade 0%nat
                    (Sample.world_with (Sample.trade "t1" "waiting" 0)))))
         None) = (Ret tt, v') /\
    dict_get (active_trades (_system_state v')) "t1" = Some l' /\
    heap v' !! l' = Some (Sample.trade "t1" "waiting" 0).
Proof.
  assert (H1 : live (Sample.world_with (Sample.trade "t1" "waiting" 0))).
  { constructor; [|constructor].
    exists (Sample.trade "t1" "waiting" 0). reflexivity. }
  assert (H2 : NoDup (map fst (active_trades
                 (_system_state
                    (Sample.world_with (Sample.trade "t1" "waiting" 0)))))).
  { constructor; [|constructor]. rewrite list_elem_of_In. simpl. tauto. }
  destruct (proj1 (add_and_remove_are_durable
                     (Sample.world_with (Sample.trade "t1" "waiting" 0)) H1 H2)
                  0%nat (Sample.trade "t1" "waiting" 0)
                  (Sample.world_with_files
                     (state_file
                        (snd (add_trade 0%nat
                                (Sample.world_with
                                   (Sample.trade "t1" "waiting" 0)))))
                     None)
                  eq_refl (state_file_world_with_files _ _))
    as (v' & l' & Ha & Hb & Hc & _).
  exists v', l'. split; [exact Ha|]. split; [exact Hb|exact Hc].
Defined.

End MoreSharedState.


(* ===================================================================== *)
(** * More of the trade logic                                            *)
(* ===================================================================== *)

Section MoreTradeLogic.
Import SharedState TradeLogic Props.

(** ** What a price update leaves alone *)

Lemma tick_frame (t : TradeState) (price : float) (clock : nat -> float)
    (n : nat) :
  let t' := fold_left setattr (snd (fst (tick t price clock n))) t in
  terms t' = terms t /\
  current_price t' = price /\
  current_profit_usd t' = profit_at t price.
Proof.
  unfold tick.
  destruct (price <=? stop_loss_price t); [cbn; auto|].
  destruct (TradePhase_of (status t)) as [[]|e].
  - cbn; auto.
  - destruct (target_profit_usd t <=? profit_at t price); cbn; auto.
  - destruct (max_profit_usd t <? profit_at t price);
      match goal with
      | |- context [if ?c then (_, _, _) else _] => destruct c
      end; cbn; auto.
  - cbn; auto.
  - cbn; auto.
  - cbn; auto.
Qed.

(** X15.  The frame of [update_trade_with_price].  For an id that is not
    in the store it returns [(False, "Trade not found")] and changes
    nothing.  For a stored trade, whatever it returns or raises, the trade
    stays stored under its id as the same object, with the new price and
    the profit at that price recorded and its terms (id, symbol, side,
    quantity, entry price and time, target, threshold, stop-loss,
    commission, process id) as before; the store's dictionary, the files,
    the error log and all other objects are untouched. *)
Theorem price_update_frame (w : world) (id : string) (price : float) :
  (dict_get (active_trades (_system_state w)) id = None ->
   update_trade_with_price id price w =
     (Ret (false, Some "Trade not found"), w))
  /\
  (forall l t,
     stored w id l t ->
     exists o w' t',
       update_trade_with_price id price w = (o, w') /\
       stored w' id l t' /\
       terms t' = terms t /\
       current_price t' = price /\
       current_profit_usd t' = profit_at t price /\
       _system_state w' = _system_state w /\
       state_file w' = state_file w /\
       backup_file w' = backup_file w /\
       errors w' = errors w /\
       (forall l', l' <> l -> heap w' !! l' = heap w !! l')).
Proof.
  split.
  - intros Hd. unfold update_trade_with_price.
    rewrite bind_run, get_trade_run, Hd. reflexivity.
  - intros l t Hs.
    rewrite (update_trade_with_price_run id l t price w Hs).
    pose proof (tick_frame t price (time_time w) (ticks w)) as Hf.
    destruct (tick t price (time_time w) (ticks w)) as [[o kws] n'].
    cbn [fst snd] in Hf. destruct Hf as (Ht & Hp & Hc).
    do 3 eexists. split; [reflexivity|].
    split; [apply stored_after, Hs|].
    split; [exact Ht|]. split; [exact Hp|]. split; [exact Hc|].
    repeat split.
    intros l' Hne. rewrite heap_put_ne by congruence. reflexivity.
Qed.

(** ** The waiting phase *)

(** X16.  A stored trade in the waiting phase, at a price above its
    stop-loss price: [update_trade_with_price] always returns
    [(True, None)].  When the profit at that price has reached the target
    the trade is put in the trailing phase with trailing active and the
    profit as its maximal profit; otherwise status, trailing flag, maximal
    profit and [last_update] are as before. *)
Theorem waiting_phase_rule (w : world) (id : string) (l : loc)
    (t : TradeState) (price : float) :
  stored w id l t ->
  status t = value WAITING_PROFIT ->
  (price <=? stop_loss_price t) = false ->
  exists w' t',
    update_trade_with_price id price w = (Ret (true, None), w') /\
    stored w' id l t' /\
    if target_profit_usd t <=? profit_at t price
    then status t' = value TRAILING /\
         trailing_active t' = true /\
         max_profit_usd t' = profit_at t price /\
         last_update t' = time_time w (ticks w)
    else status t' = value WAITING_PROFIT /\
         trailing_active t' = trailing_active t /\
         max_profit_usd t' = max_profit_usd t /\
         last_update t' = last_update t.
Proof.
  intros Hs Hst Hsl.
  rewrite (update_trade_with_price_run id l t price w Hs).
  unfold tick. rewrite Hsl, Hst. cbn [TradePhase_of value String.eqb
    Ascii.eqb Bool.eqb].
  destruct (target_profit_usd t <=? profit_at t price).
  - do 2 eexists. split; [reflexivity|].
    split; [apply stored_after, Hs|]. cbn. auto.
  - do 2 eexists. split; [reflexivity|].
    split; [apply stored_after, Hs|]. cbn. auto.
Qed.

Lemma waiting_phase_rule_witness :
  exists w' t',
    update_trade_with_price "t1" 61000
      (Sample.world_with (Sample.trade "t1" "waiting" 0)) =
      (Ret (true, None), w') /\
    stored w' "t1" 0%nat t' /\
    status t' = "waiting".
Proof.
  destruct (waiting_phase_rule
              (Sample.world_with (Sample.trade "t1" "waiting" 0))
              "t1" 0%nat (Sample.trade "t1" "waiting" 0) 61000
              (conj eq_refl (conj eq_refl eq_refl)) eq_refl eq_refl)
    as (w' & t' & Ha & Hb & Hc).
  exists w', t'. split; [exact Ha|]. split; [exact Hb|].
  replace (target_profit_usd (Sample.trade "t1" "waiting" 0) <=?
           profit_at (Sample.trade "t1" "waiting" 0) 61000)
    with false in Hc by (vm_compute; reflexivity).
  apply Hc.
Defined.

(** ** The order of the phases *)

Lemma phase_step_trans (s1 s2 s3 : string) :
  phase_step s1 s2 -> phase_step s2 s3 -> phase_step s1 s3.
Proof.
  unfold phase_step. cbn [value].
  intros [ -> | [ [ -> -> ] | -> ] ] [ -> | [ [E -> ] | -> ] ]; auto;
    try discriminate E.
Qed.

Lemma tick_phase_step (t : TradeState) (price : float) (clock : nat -> float)
    (n : nat) :
  phase_step (status t)
             (status (fold_left setattr (snd (fst (tick t price clock n))) t)).
Proof.
  unfold tick, phase_step.
  destruct (price <=? stop_loss_price t); [cbn; auto|].
  destruct (TradePhase_of (status t)) as [p|e] eqn:Ep; [|cbn; auto].
  apply TradePhase_of_value in Ep.
  destruct p.
  - cbn; auto.
  - destruct (target_profit_usd t <=? profit_at t price); cbn; auto.
  - destruct (max_profit_usd t <? profit_at t price);
      match goal with
      | |- context [if ?c then (_, _, _) else _] => destruct c
      end; cbn; auto.
  - cbn; auto.
  - cbn; auto.
Qed.

(** X17.  The phases are passed in one direction.  After any sequence of
    price updates a stored trade is still stored under its id as the same
    object, and its status is what it was, or trailing after waiting, or
    exiting: an exiting trade stays exiting, a trailing trade is never
    waiting again, and no price update makes a trade entering, waiting or
    completed. *)
Theorem phases_one_way (id : string) (l : loc) (prices : list float) :
  forall (w : world) (t : TradeState),
    stored w id l t ->
    exists t',
      stored (run_prices id prices w) id l t' /\
      phase_step (status t) (status t') /\
      terms t' = terms t.
Proof.
  induction prices as [|p prices IH]; intros w t Hs; simpl.
  - exists t. split; [exact Hs|]. split; [now left|reflexivity].
  - pose proof (update_trade_with_price_world id l t p w Hs) as Hs1.
    cbv zeta in Hs1.
    destruct (IH _ _ Hs1) as (t' & Hs' & Hph & Hte).
    exists t'. split; [exact Hs'|]. split.
    + eapply phase_step_trans; [apply tick_phase_step|exact Hph].
    + rewrite Hte. apply (tick_frame t p (time_time w) (ticks w)).
Qed.

Lemma phases_one_way_witness :
  exists t',
    stored (run_prices "t1" [64000; 61000; 58000]
              (Sample.world_with (Sample.trade "t1" "waiting" 0)))
           "t1" 0%nat t' /\
    phase_step "waiting" (status t').
Proof.
  destruct (phases_one_way "t1" 0%nat [64000; 61000; 58000]
              (Sample.world_with (Sample.trade "t1" "waiting" 0))
              (Sample.trade "t1" "waiting" 0)
              (conj eq_refl (conj eq_refl eq_refl)))
    as (t' & Ha & Hb & _).
  exists t'. split; [exact Ha|exact Hb].
Defined.

(** ** Completing a trade *)

(** X18.  [complete_trade] on an id that is not in the store does nothing.
    On a stored trade it marks the object completed with the exit price and
    the actual profit, keeps its terms, and removes it from the store: the
    id is no longer found, every other id has the reference it had. *)
Theorem complete_trade_removes (w : world) (id : string)
    (exit_price actual_profit : float) :
  (dict_get (active_trades (_system_state w)) id = None ->
   complete_trade id exit_price actual_profit w = (Ret tt, w))
  /\
  (forall l t,
     stored w id l t ->
     exists w' t',
       complete_trade id exit_price actual_profit w = (Ret tt, w') /\
       get_trade id w' = (Ret None, w') /\
       heap w' !! l = Some t' /\
       status t' = value COMPLETED /\
       current_price t' = exit_price /\
       current_profit_usd t' = actual_profit /\
       terms t' = terms t /\
       (forall id', id' <> id ->
          dict_get (active_trades (_system_state w')) id' =
          dict_get (active_trades (_system_state w)) id') /\
       (forall l', l' <> l -> heap w' !! l' = heap w !! l')).
Proof.
  split.
  - intros Hd. unfold complete_trade.
    rewrite bind_run, get_trade_run, Hd. reflexivity.
  - intros l t Hs. pose proof Hs as (Hd & Hh & Hi).
    replace (complete_trade id exit_price actual_profit w)
      with (complete_trade id exit_price actual_profit
              (put l t (with_ticks (ticks w) w)))
      by (f_equal; symmetry; apply world_eta, Hh).
    unfold complete_trade.
    rewrite bind_run, (nf_get_trade _ _ _ _ _ _ Hs). cbv beta iota.
    rewrite bind_run, nf_assign. cbv beta iota.
    rewrite bind_run, nf_assign. cbv beta iota.
    rewrite bind_run, nf_assign. cbv beta iota.
    rewrite bind_run, nf_time. cbv beta iota.
    rewrite bind_run.
    erewrite (nf_update_trade _ id) by (first [eassumption | reflexivity]).
    cbv beta iota.
    rewrite remove_trade_run. unfold dict_mem.
    cbn [_system_state put with_heap with_ticks]. rewrite Hd.
    match goal with
    | |- context [save_state true ?w1] =>
        destruct (save_state_frame true w1) as (w' & Hrun & Hheap & _ & Hst)
    end.
    do 2 eexists. split; [exact Hrun|].
    split; [rewrite get_trade_run, Hst; simpl; now rewrite dict_get_del_eq|].
    split; [rewrite Hheap; apply lookup_insert_eq|].
    split; [reflexivity|]. split; [reflexivity|]. split; [reflexivity|].
    split; [reflexivity|].
    split; [intros id' Hne; rewrite Hst; simpl;
            apply dict_get_del_ne; congruence|].
    intros l' Hne. rewrite Hheap. simpl.
    apply lookup_insert_ne. congruence.
Qed.

(** ** The summary of a trade *)

(** X21.  [get_trade_summary] changes nothing but the clock.  For an id
    that is not in the store it returns the dictionary with the one key
    "error".  For a stored trade it raises [ValueError] when the status is
    none of the five phases and [ZeroDivisionError] when entry price times
    quantity is zero, in both cases before the clock is read; otherwise,
    outside the waiting phase, it returns a summary whose phase is the
    status and whose figures are those of the object. *)
Theorem get_trade_summary_cases (w : world) (id : string) :
  (dict_get (active_trades (_system_state w)) id = None ->
   get_trade_summary id w = (Ret [("error", JStr "Trade not found")], w))
  /\
  (forall l t,
     stored w id l t ->
     (forall e, TradePhase_of (status t) = Raise e ->
        get_trade_summary id w = (Raise ValueError, w)) /\
     (forall p, TradePhase_of (status t) = Ret p ->
        (entry_price t * quantity t =? 0) = true ->
        get_trade_summary id w = (Raise ZeroDivisionError, w)) /\
     (forall p, TradePhase_of (status t) = Ret p ->
        (entry_price t * quantity t =? 0) = false ->
        p <> WAITING_PROFIT ->
        exists summary,
          get_trade_summary id w =
            (Ret summary, with_ticks (S (ticks w)) w) /\
          dict_get summary "phase" = Some (JStr (status t)) /\
          dict_get summary "current_profit_usd" =
            Some (JFloat (current_profit_usd t)) /\
          dict_get summary "profit_percent" =
            Some (JFloat (current_profit_usd t /
                          (entry_price t * quantity t) * 100)) /\
          dict_get summary "max_profit_achieved" =
            Some (JFloat (max_profit_usd t)) /\
          dict_get summary "error" = None)).
Proof.
  split.
  - intros Hd. unfold get_trade_summary.
    rewrite bind_run, get_trade_run, Hd. reflexivity.
  - intros l t (Hd & Hh & Hi). unfold get_trade_summary.
    rewrite bind_run, get_trade_run, Hd. cbv beta iota.
    rewrite bind_run, (deref_run _ _ _ Hh). cbv beta iota.
    rewrite bind_lift. split; [|split].
    + intros e He. rewrite He.
      unfold TradePhase_of in He.
      repeat match type of He with
             | (if ?c then _ else _) = _ => destruct c; try discriminate He
             end.
      now injection He as <-.
    + intros p Hp Hz. rewrite Hp. rewrite bind_lift, (py_div_zero _ _ Hz).
      reflexivity.
    + intros p Hp Hz Hnw. rewrite Hp.
      rewrite bind_lift, (py_div_nonzero _ _ Hz).
      rewrite bind_run. unfold time_time_call. cbv beta iota zeta.
      apply TradePhase_of_value in Hp. rewrite Hp.
      destruct p; try congruence; eexists; (split; [reflexivity|]);
        repeat split.
Qed.

(** X22.  The exit threshold that [get_trade_summary] shows for a trailing
    trade is the level at which the next price update leaves: at a price
    above the stop-loss price whose profit does not exceed the recorded
    maximum, [update_trade_with_price] returns [(False, "trailing_stop")]
    exactly when that profit is at or below the threshold shown. *)
Theorem summary_threshold_is_exit_level (w : world) (id : string) (l : loc)
    (t : TradeState) :
  stored w id l t ->
  status t = value TRAILING ->
  (entry_price t * quantity t =? 0) = false ->
  exists summary x,
    get_trade_summary id w = (Ret summary, with_ticks (S (ticks w)) w) /\
    dict_get summary "exit_threshold" = Some (JFloat x) /\
    dict_get summary "trailing_buffer" =
      Some (JFloat (max_profit_usd t - current_profit_usd t)) /\
    forall price,
      (price <=? stop_loss_price t) = false ->
      (max_profit_usd t <? profit_at t price) = false ->
      (fst (update_trade_with_price id price (with_ticks (S (ticks w)) w)) =
         Ret (false, Some "trailing_stop")
       <-> (profit_at t price <=? x) = true).
Proof.
  intros Hs Hst Hz. pose proof Hs as (Hd & Hh & Hi).
  unfold get_trade_summary.
  rewrite bind_run, get_trade_run, Hd. cbv beta iota.
  rewrite bind_run, (deref_run _ _ _ Hh). cbv beta iota.
  rewrite bind_lift, Hst. cbn [TradePhase_of value String.eqb Ascii.eqb
    Bool.eqb]. cbv beta iota.
  rewrite bind_lift, (py_div_nonzero _ _ Hz).
  rewrite bind_run. unfold time_time_call. cbv beta iota zeta.
  do 2 eexists. split; [reflexivity|]. split; [reflexivity|].
  split; [reflexivity|].
  intros price Hsl Hmax.
  rewrite (update_trade_with_price_run id l t price _
             (stored_ticks _ _ _ _ _ Hs)).
  unfold tick. rewrite Hsl, Hst.
  cbn [TradePhase_of value String.eqb Ascii.eqb Bool.eqb].
  unfold py_max. rewrite Hmax. cbv iota.
  destruct (profit_at t price <=? max_profit_usd t - trailing_threshold t);
    cbn [orb].
  - split; reflexivity.
  - destruct (profit_at t price <=?
              target_profit_usd t - trailing_threshold t * 0.5);
      split; intros H; discriminate H.
Qed.

Lemma summary_threshold_is_exit_level_witness :
  exists summary,
    get_trade_summary "t1"
      (Sample.world_with (Sample.trade "t1" "trailing" 60)) =
      (Ret summary,
       with_ticks 3 (Sample.world_with (Sample.trade "t1" "trailing" 60))) /\
    dict_get summary "exit_threshold" = Some (JFloat 50).
Proof.
  destruct (summary_threshold_is_exit_level
              (Sample.world_with (Sample.trade "t1" "trailing" 60))
              "t1" 0%nat (Sample.trade "t1" "trailing" 60)
              (conj eq_refl (conj eq_refl eq_refl)) eq_refl eq_refl)
    as (summary & x & Ha & Hb & _).
  exists summary. split; [exact Ha|].
  unfold get_trade_summary in Ha. vm_compute in Ha.
  injection Ha as <-. reflexivity.
Defined.

(** ** The summary of all trades *)

Lemma get_trade_summary_good (w : world) (id : string) (l : loc)
    (t : TradeState) :
  dict_get (active_trades (_system_state w)) id = Some l ->
  heap w !! l = Some t ->
  summarizable t ->
  exists summary,
    get_trade_summary id w = (Ret summary, with_ticks (S (ticks w)) w).
Proof.
  intros Hd Hh (p & Hp & Hz & Ht). unfold get_trade_summary.
  rewrite bind_run, get_trade_run, Hd. cbv beta iota.
  rewrite bind_run, (deref_run _ _ _ Hh). cbv beta iota.
  rewrite bind_lift, Hp. rewrite bind_lift, (py_div_nonzero _ _ Hz).
  rewrite bind_run. unfold time_time_call. cbv beta iota zeta.
  destruct p; try (eexists; reflexivity).
  rewrite bind_lift, (py_div_nonzero _ _ (Ht eq_refl)).
  eexists. reflexivity.
Qed.

Lemma get_trade_summary_outcome (w : world) (id : string) (l : loc)
    (t : TradeState) :
  dict_get (active_trades (_system_state w)) id = Some l ->
  heap w !! l = Some t ->
  (exists summary,
     get_trade_summary id w = (Ret summary, with_ticks (S (ticks w)) w)) \/
  (exists e n,
     get_trade_summary id w = (Raise e, with_ticks n w) /\
     (e = ValueError \/ e = ZeroDivisionError)).
Proof.
  intros Hd Hh. unfold get_trade_summary.
  rewrite bind_run, get_trade_run, Hd. cbv beta iota.
  rewrite bind_run, (deref_run _ _ _ Hh). cbv beta iota.
  rewrite bind_lift.
  destruct (TradePhase_of (status t)) as [p|e] eqn:Hp.
  2:{ right. exists ValueError, (ticks w). split; [|now left].
      unfold TradePhase_of in Hp.
      repeat match type of Hp with
             | (if ?c then _ else _) = _ => destruct c; try discriminate Hp
             end.
      injection Hp as <-. now destruct w. }
  rewrite bind_lift.
  destruct (entry_price t * quantity t =? 0) eqn:Hz.
  { rewrite (py_div_zero _ _ Hz). right. exists ZeroDivisionError, (ticks w).
    split; [now destruct w|now right]. }
  rewrite (py_div_nonzero _ _ Hz).
  rewrite bind_run. unfold time_time_call. cbv beta iota zeta.
  destruct p; try (left; eexists; reflexivity).
  rewrite bind_lift.
  destruct (target_profit_usd t =? 0) eqn:Ht.
  - rewrite (py_div_zero _ _ Ht). right.
    exists ZeroDivisionError, (S (ticks w)). split; [reflexivity|now right].
  - rewrite (py_div_nonzero _ _ Ht). left. eexists. reflexivity.
Qed.

Lemma get_trade_summary_bad (w : world) (id : string) (l : loc)
    (t : TradeState) :
  dict_get (active_trades (_system_state w)) id = Some l ->
  heap w !! l = Some t ->
  unsummarizable t ->
  exists e,
    get_trade_summary id w = (Raise e, w) /\
    (e = ValueError \/ e = ZeroDivisionError).
Proof.
  intros Hd Hh Hbad. unfold get_trade_summary.
  rewrite bind_run, get_trade_run, Hd. cbv beta iota.
  rewrite bind_run, (deref_run _ _ _ Hh). cbv beta iota.
  rewrite bind_lift.
  destruct (TradePhase_of (status t)) as [p|e] eqn:Hp.
  2:{ exists ValueError. split; [|now left].
      unfold TradePhase_of in Hp.
      repeat match type of Hp with
             | (if ?c then _ else _) = _ => destruct c; try discriminate Hp
             end.
      now injection Hp as <-. }
  destruct Hbad as [[e He]|Hz]; [congruence|].
  rewrite bind_lift, (py_div_zero _ _ Hz).
  exists ZeroDivisionError. split; [reflexivity|now right].
Qed.

Lemma summarize_trades_raise (w : world) (rest : list (string * loc)) :
  forall (total : float) (phases : dict Z) (trades : dict json) (n : nat),
    (forall id l, In (id, l) rest ->
       dict_get (active_trades (_system_state w)) id = Some l) ->
    Forall (fun kv => is_Some (heap w !! snd kv)) rest ->
    Exists (fun kv => exists t, heap w !! snd kv = Some t /\ unsummarizable t)
           rest ->
    exists e n',
      summarize_trades rest total phases trades (with_ticks n w) =
        (Raise e, with_ticks n' w) /\
      (e = ValueError \/ e = ZeroDivisionError).
Proof.
  induction rest as [|[id l] rest IH]; intros total phases trades n Hin Hl Hex.
  - inversion Hex.
  - inversion Hl as [|? ? [t Ht] Hl']; subst. simpl in Ht.
    assert (Hd : dict_get (active_trades (_system_state (with_ticks n w))) id
                 = Some l) by (apply Hin; now left).
    assert (Hh : heap (with_ticks n w) !! l = Some t) by exact Ht.
    cbn [summarize_trades]. rewrite bind_run.
    assert (Hstep :
      (exists summary,
         get_trade_summary id (with_ticks n w) =
           (Ret summary, with_ticks (S n) w)) \/
      (exists e n',
         get_trade_summary id (with_ticks n w) = (Raise e, with_ticks n' w) /\
         (e = ValueError \/ e = ZeroDivisionError))).
    { destruct (get_trade_summary_outcome _ _ _ _ Hd Hh)
        as [[summary Hs]|(e & n' & Hs & He)]; [left|right].
      - exists summary. exact Hs.
      - exists e, n'. split; [exact Hs|exact He]. }
    destruct Hstep as [[summary Hs]|(e & n' & Hs & He)].
    2:{ rewrite Hs. exists e, n'. split; [reflexivity|exact He]. }
    apply Exists_cons in Hex as [(t' & Ht' & Hbad)|Hex].
    { simpl in Ht'. rewrite Ht in Ht'. injection Ht' as <-.
      destruct (get_trade_summary_bad _ _ _ _ Hd Hh Hbad) as (e & Hr & He).
      rewrite Hr in Hs. discriminate Hs. }
    rewrite Hs. cbv beta iota zeta.
    rewrite bind_run, (getattr_run l _ t) by exact Ht. cbv beta iota.
    rewrite bind_run, (getattr_run l _ t) by exact Ht. cbv beta iota.
    apply IH; [|exact Hl'|exact Hex].
    intros id' l' Hi. apply Hin. now right.
Qed.

Lemma summarize_trades_ok (w : world) (rest : list (string * loc)) :
  forall (total : float) (phases : dict Z) (trades : dict json) (n : nat),
    (forall id l, In (id, l) rest ->
       dict_get (active_trades (_system_state w)) id = Some l) ->
    Forall (fun kv => exists t, heap w !! snd kv = Some t /\ summarizable t)
           rest ->
    exists r,
      summarize_trades rest total phases trades (with_ticks n w) =
        (Ret r, with_ticks (length rest + n) w).
Proof.
  induction rest as [|[id l] rest IH]; intros total phases trades n Hin Hl.
  - eexists. reflexivity.
  - inversion Hl as [|? ? (t & Ht & Hgood) Hl']; subst. simpl in Ht.
    assert (Hd : dict_get (active_trades (_system_state (with_ticks n w))) id
                 = Some l) by (apply Hin; now left).
    assert (Hh : heap (with_ticks n w) !! l = Some t) by exact Ht.
    destruct (get_trade_summary_good _ _ _ _ Hd Hh Hgood) as [summary Hs].
    cbn [summarize_trades]. rewrite bind_run, Hs. cbv beta iota zeta.
    change (with_ticks (S (ticks (with_ticks n w))) (with_ticks n w))
      with (with_ticks (S n) w).
    rewrite bind_run, (getattr_run l _ t) by exact Ht. cbv beta iota.
    rewrite bind_run, (getattr_run l _ t) by exact Ht. cbv beta iota.
    destruct (IH (total + current_profit_usd t)
                 (dict_set phases (status t)
                    (match dict_get phases (status t) with
                     | Some n => n
                     | None => 0%Z
                     end + 1)%Z)
                 (dict_set trades id (JObj summary)) (S n))
      as [r Hr]; [|exact Hl'|].
    { intros id' l' Hi. apply Hin. now right. }
    exists r. rewrite Hr. simpl length. now rewrite Nat.add_succ_r.
Qed.

(** X23.  [get_all_trades_summary] stands or falls with every single
    trade.  In a store whose references all have an object and whose ids are
    distinct: if one stored record has a status that is no phase, or a cost
    (entry price times quantity) of zero, the call raises [ValueError] or
    [ZeroDivisionError] and no summary is returned; if every record can be
    summarized it returns, counts the trades of the store and reads the
    clock once for each.  Either way the store, the objects and the files
    are unchanged. *)
Theorem all_trades_summary_all_or_nothing (w : world) :
  live w ->
  NoDup (map fst (active_trades (_system_state w))) ->
  (Exists (fun kv => exists t, heap w !! snd kv = Some t /\ unsummarizable t)
          (active_trades (_system_state w)) ->
   exists e n,
     get_all_trades_summary w = (Raise e, with_ticks n w) /\
     (e = ValueError \/ e = ZeroDivisionError))
  /\
  (Forall (fun kv => exists t, heap w !! snd kv = Some t /\ summarizable t)
          (active_trades (_system_state w)) ->
   exists summary,
     get_all_trades_summary w =
       (Ret summary,
        with_ticks (length (active_trades (_system_state w)) + ticks w) w) /\
     dict_get summary "total_active_trades" =
       Some (JInt (Z.of_nat (length (active_trades (_system_state w)))))).
Proof.
  intros Hl Hnd.
  assert (Hin : forall id l,
            In (id, l) (active_trades (_system_state w)) ->
            dict_get (active_trades (_system_state w)) id = Some l).
  { intros id l Hi. apply dict_get_NoDup; assumption. }
  assert (Hw : w = with_ticks (ticks w) w) by now destruct w.
  unfold get_all_trades_summary. rewrite bind_run.
  change (get_all_trades w) with (Ret (active_trades (_system_state w)), w).
  cbv beta iota. rewrite bind_run. split.
  - intros Hex.
    destruct (summarize_trades_raise w _ 0 [] [] (ticks w) Hin Hl Hex)
      as (e & n' & Hr & He).
    rewrite <- Hw in Hr. rewrite Hr. exists e, n'. split; [reflexivity|exact He].
  - intros Hall.
    destruct (summarize_trades_ok w _ 0 [] [] (ticks w) Hin Hall) as [r Hr].
    rewrite <- Hw in Hr. rewrite Hr. destruct r as [[total phases] trades].
    eexists. split; reflexivity.
Qed.

Lemma all_trades_summary_all_or_nothing_witness :
  exists e n,
    get_all_trades_summary
      (Sample.world_with (Sample.trade "t1" "paused" 0)) =
      (Raise e,
       with_ticks n (Sample.world_with (Sample.trade "t1" "paused" 0))) /\
    (e = ValueError \/ e = ZeroDivisionError).
Proof.
  assert (H1 : live (Sample.world_with (Sample.trade "t1" "paused" 0))).
  { constructor; [|constructor].
    exists (Sample.trade "t1" "paused" 0). reflexivity. }
  assert (H2 : NoDup (map fst (active_trades
                 (_system_state
                    (Sample.world_with (Sample.trade "t1" "paused" 0)))))).
  { constructor; [|constructor]. rewrite list_elem_of_In. simpl. tauto. }
  apply (proj1 (all_trades_summary_all_or_nothing
                  (Sample.world_with (Sample.trade "t1" "paused" 0)) H1 H2)).
  apply Exists_cons_hd. exists (Sample.trade "t1" "paused" 0).
  split; [reflexivity|]. left. exists ValueError. reflexivity.
Defined.

End MoreTradeLogic.


(* ===================================================================== *)
(** * The entry signal                                                   *)
(* ===================================================================== *)

Section MoreEntrySignal.
Import SharedState EntrySignal Props.

(** X19.  [analyze_entry_signal] gives a signal exactly when the balance
    is not below 50 and the RSI is below 35, or below 45 with the MACD
    above both its signal line and zero.  The signal carries the symbol,
    the price, the target of 50 and the clock reading; its confidence is
    30/60, 40/60 or 55/60, so always below 1, and it names at least one
    reason.  Without a signal the clock is not read. *)
Theorem entry_signal_rule (sym : string) (current_price : float)
    (market_indicators : dict float) (available_balance : float) (w : world) :
  (signal_wanted market_indicators available_balance = false ->
   analyze_entry_signal sym current_price market_indicators available_balance w
     = (Ret None, w))
  /\
  (signal_wanted market_indicators available_balance = true ->
   exists s,
     analyze_entry_signal sym current_price market_indicators
       available_balance w = (Ret (Some s), with_ticks (S (ticks w)) w) /\
     symbol s = sym /\
     entry_price s = current_price /\
     target_profit_usd s = 50 /\
     timestamp s = time_time w (ticks w) /\
     (confidence s = 30 / 60 \/ confidence s = 40 / 60 \/
      confidence s = 55 / 60) /\
     (confidence s <? 1) = true /\
     reasons s <> []).
Proof.
  unfold signal_wanted, analyze_entry_signal, score_of.
  destruct (indicator market_indicators "rsi" 50 <? 35);
    destruct (indicator market_indicators "rsi" 50 <? 45);
    destruct (indicator market_indicators "macdsignal" 0 <?
              indicator market_indicators "macd" 0);
    destruct (0 <? indicator market_indicators "macd" 0);
    destruct (available_balance <? 50);
    cbn [negb andb orb app];
    (split; [intros H; first [discriminate H | reflexivity]|]);
    intros H; try discriminate H;
    match goal with
    | |- context [(?a <? 30)%Z] =>
        let b := eval vm_compute in (a <? 30)%Z in
        change ((a <? 30)%Z) with b
    end;
    cbv iota; rewrite bind_run; unfold time_time_call; cbv beta iota;
    eexists; (split; [reflexivity|]);
    cbn [symbol entry_price target_profit_usd timestamp confidence reasons];
    (split; [reflexivity|]); (split; [reflexivity|]); (split; [reflexivity|]);
    (split; [reflexivity|]);
    (split; [first [left; vm_compute; reflexivity
                   | right; left; vm_compute; reflexivity
                   | right; right; vm_compute; reflexivity]|]);
    (split; [vm_compute; reflexivity|discriminate]).
Qed.

End MoreEntrySignal.
